(** * Spatio-temporal heatwave analysis: a shallow embedding

    The development follows the Python sources of the repository:

    - [Heatwave_Detection.py], in its script version and in its version
      with functions: thresholds, extreme-event extraction and the daily
      magnitude ([calc_mag]);
    - [con_sep.py]: the connectors and selectors of the event graph;
    - [cppv.py]: [create_cpv], which asks DeepGraph for the edges, labels
      the components and filters the small ones;
    - [seasonal_clusters.py]: [assign_season];
    - [clustering_step2.py]: the UPGMA sub-clustering of one family.

    Temperatures are floating-point numbers in the sources; they are
    idealised here as rationals ([Q]), and the only floating-point event
    that is kept apart is a division by zero.  Time stamps are daily, so a
    [pd.Timestamp] is a day number and a [pd.Timedelta] a number of days
    (both [Z]).  The library calls the sources rely on (NumPy, DeepGraph,
    SciPy) are embedded by their documented behaviour, each in a module of
    its own. *)

From Stdlib Require Import ZArith QArith Lia Lqa.
From stdpp Require Import base list sorting strings gmap sets.

Local Open Scope Z_scope.

(** ** Outcomes of floating-point divisions *)

(** [(a - b) / (c - d)] on a pandas row: with a zero denominator a Python
    float raises [ZeroDivisionError] and a NumPy scalar yields [inf] or
    [nan]; in both cases there is no finite value. *)
Inductive outcome : Type :=
  | Value (q : Q)
  | DivisionByZero.

Definition fdiv (a b : Q) : outcome :=
  if Qeq_bool b 0 then DivisionByZero else Value (a / b).

(** ** NumPy *)

Module Numpy.

(** [np.arange(a, b)] on integers. *)
Definition arange (a b : Z) : list Z := seqZ a (b - a).

(** [Series.isin(values)] on one entry. *)
Definition isin {V} `{EqDecision V} (v : V) (values : list V) : bool :=
  bool_decide (v ∈ values).

Fixpoint insert_sorted (a : Q) (l : list Q) : list Q :=
  match l with
  | [] => [a]
  | b :: l' => if Qle_bool a b then a :: b :: l' else b :: insert_sorted a l'
  end.

Definition sort (l : list Q) : list Q := foldr insert_sorted [] l.

(** [np.percentile(a, q)] with the default linear interpolation: on the
    sorted sample the virtual index is [(n - 1) * q / 100], and the value
    is interpolated between its two neighbours.  An empty sample has no
    percentile ([None]). *)
Definition percentile (a : list Q) (q : Z) : option Q :=
  match sort a with
  | [] => None
  | (s0 :: _) as s =>
      let n := Z.of_nat (length s) in
      let lo := ((n - 1) * q) / 100 in
      let hi := Z.min (lo + 1) (n - 1) in
      let gamma := (inject_Z ((n - 1) * q) / inject_Z 100 - inject_Z lo)%Q in
      let a_lo := nth (Z.to_nat lo) s s0 in
      let a_hi := nth (Z.to_nat hi) s s0 in
      Some (a_lo + gamma * (a_hi - a_lo))%Q
  end.

End Numpy.

(** ** [seasonal_clusters.py] *)

Module SeasonalClusters.

(** [assign_season] returns one of the integers 1 to 4, or [np.nan]. *)
Inductive season : Type :=
  | Season (n : Z)
  | NaN.

Definition assign_season (doy : Z) : season :=
  if bool_decide (1 <= doy <= 90) then Season 1
  else if bool_decide (91 <= doy <= 180) then Season 2
  else if bool_decide (181 <= doy <= 270) then Season 3
  else if bool_decide (271 <= doy <= 360) then Season 4
  else NaN.

Definition is_season (s : season) : Prop :=
  s = Season 1 \/ s = Season 2 \/ s = Season 3 \/ s = Season 4.

End SeasonalClusters.

(** ** [Heatwave_Detection.py]: the daily magnitude *)

Module Magnitude.

(** The columns [calc_mag] reads from a row of the merged table. *)
Record row : Type := {
  t2m : Q;
  t2m_amax_perc25 : Q;
  t2m_amax_perc75 : Q
}.

Definition calc_mag (data : row) : outcome :=
  if Qlt_le_dec (t2m_amax_perc25 data) (t2m data)
  then fdiv (t2m data - t2m_amax_perc25 data)
            (t2m_amax_perc75 data - t2m_amax_perc25 data)
  else Value 0.

Definition perc25 (a_list : list Q) : option Q := Numpy.percentile a_list 25.
Definition perc75 (a_list : list Q) : option Q := Numpy.percentile a_list 75.

End Magnitude.

(** ** Exceptions *)

(** The Python exceptions the embedded code can raise.  None of them carries
    a grid cell or a day. *)
Inductive exn : Type :=
  | IndexError      (* percentile of an empty sample *)
  | ValueError      (* ragged nested sample, empty or non-finite distances,
                       a relation DeepGraph cannot name *)
  | KeyError        (* missing dictionary key *)
  | AttributeError. (* missing column *)

Inductive res (A : Type) : Type :=
  | Ok (a : A)
  | Raise (e : exn).
Arguments Ok {A} a.
Arguments Raise {A} e.

Global Instance res_ret : MRet res := fun A a => Ok a.

Global Instance res_bind : MBind res := fun A B k m =>
  match m with
  | Ok a => k a
  | Raise e => Raise e
  end.

Fixpoint res_mapM {A B} (f : A -> res B) (l : list A) : res (list B) :=
  match l with
  | [] => Ok []
  | a :: l' => b ← f a; bs ← res_mapM f l'; Ok (b :: bs)
  end.

Global Instance res_fmap : FMap res := fun A B f m =>
  match m with
  | Ok a => Ok (f a)
  | Raise e => Raise e
  end.

Definition of_option {A} (e : exn) (o : option A) : res A :=
  match o with
  | Some a => Ok a
  | None => Raise e
  end.

Definition is_Ok {A} (m : res A) : Prop := exists a, m = Ok a.

(** ** [con_sep.py] *)

Module ConSep.

(** Boolean-mask indexing [a[mask]]. *)
Definition mask_index {A} (a : list A) (mask : list bool) : list A :=
  (filter (fun p => p.2 = true) (zip a mask)).*1.

Definition grid_2d_dx (x_s x_t : Z) : Z := x_t - x_s.

Definition grid_2d_dy (y_s y_t : Z) : Z := y_t - y_s.

Definition s_grid_2d_dx (dx : list Z) (sources targets : list nat)
  : list nat * list nat :=
  let dxa := Z.abs <$> dx in
  let sources := mask_index sources ((fun d => bool_decide (d <= 1)) <$> dxa) in
  let targets := mask_index targets ((fun d => bool_decide (d <= 1)) <$> dxa) in
  (sources, targets).

Definition s_grid_2d_dy (dy : list Z) (sources targets : list nat)
  : list nat * list nat :=
  let dya := Z.abs <$> dy in
  let sources := mask_index sources ((fun d => bool_decide (d <= 1)) <$> dya) in
  let targets := mask_index targets ((fun d => bool_decide (d <= 1)) <$> dya) in
  (sources, targets).

(** [cp_node_intersection]: cardinality of the intersection of two sets
    of grid-cell ids. *)
Definition cp_node_intersection (g_ids_s g_ids_t : gset Z) : nat :=
  size (g_ids_s ∩ g_ids_t).

(** [cp_intersection_strength]: [intsec_card / min(n_s, n_t)]. *)
Definition cp_intersection_strength (n_unique_g_ids_s n_unique_g_ids_t : nat)
    (intsec_card : nat) : outcome :=
  let min_card := Nat.min n_unique_g_ids_s n_unique_g_ids_t in
  fdiv (inject_Z (Z.of_nat intsec_card)) (inject_Z (Z.of_nat min_card)).

(** DeepGraph calls these functions by the names in their text: a
    connector computes the relation named by the item of its [return]
    statement, a selector works on the relation named by its argument.
    The items and arguments, as [con_sep.py] writes them: *)
Definition grid_2d_dx_returns : string := "x_t - x_s".
Definition grid_2d_dy_returns : string := "y_t - y_s".
Definition s_grid_2d_dx_relation : string := "dx".
Definition s_grid_2d_dy_relation : string := "dy".

End ConSep.

(** ** DeepGraph *)

(** The methods of [deepgraph.DeepGraph] the sources call, by their
    documented behaviour.  A node table is a list of rows; a node is named
    by its position in the table. *)
Module DeepGraph.

(** [g.filter_by_values_v(col, values)] rebinds [g.v] to the rows whose
    [col] is in [values]; the table [g] was built from is left as it is
    (the sources rely on it: they filter a fresh [DeepGraph] of the same
    table in every loop iteration). *)
Definition filter_by_values_v {A V} `{EqDecision V} (col : A -> V)
    (values : list V) (v : list A) : list A :=
  filter (fun r => Numpy.isin (col r) values = true) v.

(** [g.partition_nodes(features, return_gv=True)]: the groups of rows
    with equal [features], each with its key.  (pandas orders the groups
    by key; here they come in order of first appearance.) *)
Definition partition_nodes {A K} `{EqDecision K} (features : A -> K)
    (v : list A) : list (K * list A) :=
  (fun k => (k, filter (fun r => features r = k) v))
    <$> remove_dups (features <$> v).

(** All pairs of positions [s < t] of a table of [n] rows. *)
Definition pairs (n : nat) : list (nat * nat) :=
  s ← seq 0 n; (fun t => (s, t)) <$> seq (S s) (n - S s).

Definition take_at (col : list Z) (idx : list nat) : list Z :=
  (fun i => col !!! i) <$> idx.

(** The fast-track selector: it keeps the pairs whose distance [ft_r] in
    the fast-track feature is at most the threshold [ftt]. *)
Definition ft_selector (ft_r : list Z) (ftt : Z) (sources targets : list nat)
  : list nat * list nat :=
  (ConSep.mask_index sources ((fun r => bool_decide (r <= ftt)) <$> ft_r),
   ConSep.mask_index targets ((fun r => bool_decide (r <= ftt)) <$> ft_r)).

(** DeepGraph takes the names of the relations from the text of the
    functions it is given: the relation a connector computes is the item
    of its [return] statement, which has to be a name. *)
Definition name_char (c : Ascii.ascii) : bool :=
  let n := Ascii.nat_of_ascii c in
  ((97 <=? n) && (n <=? 122) || (65 <=? n) && (n <=? 90)
   || (48 <=? n) && (n <=? 57) || (n =? 95))%nat.

Definition is_name (s : string) : bool :=
  match String.list_ascii_of_string s with
  | [] => false
  | l => forallb name_char l
  end.

(** A connector: the item of its [return] statement, the column of the
    features it reads at the source and at the target, and the function. *)
Record connector : Type := {
  c_returns : string;
  c_feature : list Z;
  c_fct : Z -> Z -> Z
}.

(** A selector: the relation it asks for, and the function. *)
Record selector : Type := {
  s_relation : string;
  s_fct : list Z -> list nat -> list nat -> list nat * list nat
}.

Definition find_connector (r : string) (connectors : list connector)
  : option connector :=
  snd <$> list_find (fun c => c_returns c = r) connectors.

(** One selector at work: the relation it asks for is computed by the
    connector that returns it, on the pairs that are left; a relation no
    connector returns is a [ValueError]. *)
Definition select (connectors : list connector)
    (st : res (list nat * list nat)) (sel : selector)
  : res (list nat * list nat) :=
  st ← st;
  c ← of_option ValueError (find_connector (s_relation sel) connectors);
  Ok (s_fct sel
        (zip_with (c_fct c) (take_at (c_feature c) st.1) (take_at (c_feature c) st.2))
        st.1 st.2).

(** [g.create_edges_ft(ft_feature=(ftf, ftt), connectors, selectors)] on
    a table sorted by the fast-track feature [ftf]: of the pairs [s < t]
    it keeps those with [ft_r = ftf[t] - ftf[s] <= ftt], then hands the
    survivors to each selector in turn.  It raises [ValueError] when the
    relations cannot be named. *)
Definition create_edges_ft (ftf : list Z) (ftt : Z)
    (connectors : list connector) (selectors : list selector)
  : res (list (nat * nat)) :=
  if forallb (fun c => is_name (c_returns c)) connectors then
    let cand := pairs (length ftf) in
    let sources := cand.*1 in
    let targets := cand.*2 in
    let ft_r := zip_with Z.sub (take_at ftf targets) (take_at ftf sources) in
    st ← foldl (select connectors) (Ok (ft_selector ft_r ftt sources targets))
         selectors;
    Ok (zip st.1 st.2)
  else Raise ValueError.


(** Component labels by merging the labels of the two ends of every
    edge (SciPy's [connected_components] numbers the components
    differently; the partition is the same). *)
Definition relabel (ls lt : nat) (labels : list nat) : list nat :=
  (fun l => if decide (l = lt) then ls else l) <$> labels.

Definition union (labels : list nat) (e : nat * nat) : list nat :=
  match labels !! e.1, labels !! e.2 with
  | Some ls, Some lt => relabel ls lt labels
  | _, _ => labels
  end.

Definition connected_components (n : nat) (e : list (nat * nat)) : list nat :=
  foldl union (seq 0 n) e.

Definition value_count (labels : list nat) (l : nat) : nat :=
  length (filter (fun l' => l' = l) labels).

(** [g.append_cp(consolidate_singles=True)]: the components of one node
    are consolidated under the label 0, the other components get labels
    from 1 on.  (DeepGraph then numbers them by decreasing size, which
    renames the labels and leaves the partition alone.) *)
Definition append_cp (n : nat) (e : list (nat * nat)) : list nat :=
  let labels := connected_components n e in
  (fun l => if decide (value_count labels l = 1%nat) then 0%nat else S l)
    <$> labels.

End DeepGraph.

(** ** Partitions and connectivity *)

Module Partition.

(** The partition a column [cp] of labels induces on the rows. *)
Definition same_cp (cp : list nat) (i j : nat) : Prop :=
  (i < length cp)%nat /\ (j < length cp)%nat /\ cp !! i = cp !! j.

(** The edges of a list that join two rows of a table of [n] rows. *)
Definition edge_rel (n : nat) (e : list (nat * nat)) (s t : nat) : Prop :=
  (s, t) ∈ e /\ (s < n)%nat /\ (t < n)%nat.

(** Two rows are connected when a chain of edges, taken in either
    direction, leads from one to the other. *)
Definition connected (n : nat) (e : list (nat * nat)) : relation nat :=
  rtsc (edge_rel n e).

(** A column of labels represents a relation on the rows when two rows
    have the same label iff they are related. *)
Definition represents (labels : list nat) (R : relation nat) : Prop :=
  forall i j a b, labels !! i = Some a -> labels !! j = Some b -> (a = b <-> R i j).

End Partition.

(** ** [cppv.py] *)

Module Cppv.

(** A row of the table of extreme events. *)
Record node : Type := {
  time : Z;
  itime : Z;
  x : Z;
  y : Z;
  g_id : Z;
  magnitude : Q
}.

Definition time_le (a b : node) : Prop := time a <= time b.

Global Instance time_le_dec : RelDecision time_le :=
  fun a b => Z_le_dec (time a) (time b).

(** [extr_data.sort_values('time')]. *)
Definition sort_values_time (extr_data : list node) : list node :=
  merge_sort time_le extr_data.

(** The call of [create_edges_ft] in [create_cpv], with [itime] as the
    fast-track feature and 1 as its threshold, and the connectors and
    selectors of [con_sep.py] under the names of their text.
    ([r_dtype_dic] gives the types of the relations [ft_r], [dx] and
    [dy].) *)
Definition edges (v : list node) : res (list (nat * nat)) :=
  DeepGraph.create_edges_ft (itime <$> v) 1
    [ {| DeepGraph.c_returns := ConSep.grid_2d_dx_returns;
         DeepGraph.c_feature := x <$> v;
         DeepGraph.c_fct := ConSep.grid_2d_dx |};
      {| DeepGraph.c_returns := ConSep.grid_2d_dy_returns;
         DeepGraph.c_feature := y <$> v;
         DeepGraph.c_fct := ConSep.grid_2d_dy |} ]
    [ {| DeepGraph.s_relation := ConSep.s_grid_2d_dx_relation;
         DeepGraph.s_fct := ConSep.s_grid_2d_dx |};
      {| DeepGraph.s_relation := ConSep.s_grid_2d_dy_relation;
         DeepGraph.s_fct := ConSep.s_grid_2d_dy |} ].

(** A row of the supernode table [cpv]. *)
Record supernode : Type := {
  cp : nat;
  time_amin : Z;
  time_amax : Z;
  HWMId_magnitude : Q;
  g_ids : gset Z;
  n_unique_g_ids : nat;
  dt : Z;
  timespan : Z
}.

(** [np.min] and [np.max] of a group (groups are never empty). *)
Definition amin (l : list Z) : Z :=
  match l with
  | [] => 0
  | a :: l' => foldl Z.min a l'
  end.

Definition amax (l : list Z) : Z :=
  match l with
  | [] => 0
  | a :: l' => foldl Z.max a l'
  end.

Definition features (c : nat) (members : list node) : supernode :=
  let tmin := amin (time <$> members) in
  let tmax := amax (time <$> members) in
  let ids : gset Z := list_to_set (g_id <$> members) in
  {| cp := c;
     time_amin := tmin;
     time_amax := tmax;
     HWMId_magnitude := foldr Qplus 0%Q (magnitude <$> members);
     g_ids := ids;
     n_unique_g_ids := size ids;
     dt := tmax - tmin;
     timespan := (tmax - tmin) + 1 |}.

(** [pd.Timedelta(days=1)]. *)
Definition min_duration : Z := 1.

(** The [keep] column. *)
Definition keep (r : supernode) (b : Z) : bool :=
  bool_decide (dt r > min_duration) && bool_decide (Z.of_nat (n_unique_g_ids r) > b).

(** The rest of [create_cpv], from [g.append_cp] on, reads the edge
    table [g.e] the call of [create_edges_ft] has left. *)

(** The node table [g.v] with its [cp] column. *)
Definition nodes_cp (e : list (nat * nat)) (extr_data : list node)
  : list (node * nat) :=
  let v := sort_values_time extr_data in
  zip v (DeepGraph.append_cp (length v) e).

(** The supernode table [cpv], before the filter. *)
Definition supernodes (e : list (nat * nat)) (extr_data : list node)
  : list supernode :=
  (fun g : nat * list (node * nat) => features g.1 (g.2.*1))
    <$> DeepGraph.partition_nodes snd (nodes_cp e extr_data).

(** The node table reduced to the kept components, and the kept
    supernodes. *)
Definition create_cpv_from_edges (e : list (nat * nat)) (extr_data : list node)
    (b : Z) : list (node * nat) * list supernode :=
  let cpv := filter (fun r => keep r b = true) (supernodes e extr_data) in
  let cps := cp <$> cpv in
  (DeepGraph.filter_by_values_v snd cps (nodes_cp e extr_data), cpv).

(** [create_cpv(extr_data, b)]. *)
Definition create_cpv (extr_data : list node) (b : Z)
  : res (list (node * nat) * list supernode) :=
  e ← edges (sort_values_time extr_data);
  Ok (create_cpv_from_edges e extr_data b).

End Cppv.

(** ** [Heatwave_Detection.py]: thresholds and extraction *)

Module HeatwaveDetection.

(** A row of the daily table [vt]. *)
Record obs : Type := {
  x : Z;
  y : Z;
  year : Z;
  ytime : Z;
  t2m : Q
}.

Definition time_window : list Z :=
  Numpy.arange 350 366 ++ Numpy.arange 1 366 ++ Numpy.arange 1 16.

(** The slice [a[i:j]]. *)
Definition slice {A} (a : list A) (i j : nat) : list A :=
  take (j - i) (drop i a).

(** A row of [cpv_t]: a cell, a day of the year and the temperatures of
    that day in all years. *)
Record cell_day : Type := {
  cd_x : Z;
  cd_y : Z;
  cd_ytime : Z;
  cd_t2m : list Q
}.

Definition cell_days (pool : list obs) : list cell_day :=
  (fun g : Z * Z * Z * list obs =>
     {| cd_x := g.1.1.1; cd_y := g.1.1.2; cd_ytime := g.1.2;
        cd_t2m := t2m <$> g.2 |})
    <$> DeepGraph.partition_nodes (fun r => (x r, y r, ytime r)) pool.

(** [np.percentile] of a list of lists: NumPy makes a matrix of it when
    the lists are of one length and takes the percentile of all its
    entries; it rejects a ragged list. *)
Definition percentile_nested (a : list (list Q)) (q : Z) : res Q :=
  match a with
  | [] => Raise IndexError
  | r :: a' =>
      if forallb (fun r' => Nat.eqb (length r') (length r)) a'
      then of_option IndexError (Numpy.percentile (mjoin a) q)
      else Raise ValueError
  end.

Record thresh_row : Type := {
  th_x : Z;
  th_y : Z;
  th_ytime : Z;
  thresh : Q
}.

(** One turn of the loop [for i in range(366)]. *)
Definition window_thresholds (cpv_t : list cell_day) (i : nat)
  : res (list thresh_row) :=
  let g_v := DeepGraph.filter_by_values_v cd_ytime
               (slice time_window i (i + 31)) cpv_t in
  let tmp_p := DeepGraph.partition_nodes (fun r => (cd_x r, cd_y r)) g_v in
  res_mapM (fun g : Z * Z * list cell_day =>
              th ← percentile_nested (cd_t2m <$> g.2) 99;
              Ok {| th_x := g.1.1; th_y := g.1.2;
                    th_ytime := Z.of_nat i + 1; thresh := th |}) tmp_p.

(** The table [tmp2] of thresholds, from the table the samples are
    pooled from. *)
Definition threshold_table (pool : list obs) : res (list thresh_row) :=
  let cpv_t := cell_days pool in
  tables ← res_mapM (window_thresholds cpv_t) (seq 0 366);
  Ok (mjoin (tables : list (list thresh_row))).

Record result_row : Type := {
  r_obs : obs;
  r_thresh : Q
}.

(** [pd.merge(vt, tmp2, on=["ytime", "x", "y"])]. *)
Definition merge (vt : list obs) (tmp2 : list thresh_row) : list result_row :=
  r ← vt;
  (fun th => {| r_obs := r; r_thresh := thresh th |})
    <$> filter (fun th => th_ytime th = ytime r /\ th_x th = x r /\ th_y th = y r) tmp2.

(** [calculate_thresholds(data)] of the function version of the script:
    the samples are pooled from [data] itself. *)
Definition calculate_thresholds (data : list obs) : res (list result_row) :=
  thresholds ← threshold_table data;
  Ok (merge data thresholds).

(** The script version.  [g_t = dg.DeepGraph(vt)] shares the table [vt];
    [g_t.filter_by_values_v('ytime', np.arange(366))] rebinds [g_t.v] and
    leaves [vt] as it was; the thresholds are pooled from [g_t.v] and
    merged into [vt]. *)
Definition g_t_v (vt : list obs) : list obs :=
  DeepGraph.filter_by_values_v ytime (Numpy.arange 0 366) vt.

Definition result (vt : list obs) : res (list result_row) :=
  tmp2 ← threshold_table (g_t_v vt);
  Ok (merge vt tmp2).

(** [result["t2m"] >= result["thresh"]]. *)
Definition detect_extreme_events (result : list result_row) : list result_row :=
  filter (fun r => Qle_bool (r_thresh r) (t2m (r_obs r)) = true) result.

Definition extr (vt : list obs) : res (list result_row) :=
  result ← result vt;
  Ok (detect_extreme_events result).

(** The temperatures of a cell on the days of the window of the loop
    index [i]: the sample the threshold of day [i + 1] is taken from. *)
Definition pooled (data : list obs) (i : nat) (cx cy : Z) : list Q :=
  t2m <$> filter (fun r => x r = cx /\ y r = cy
                           /\ ytime r ∈ slice time_window i (i + 31)) data.

(** A table is regular when every cell has the same number of samples on
    each of the days 1 to 365 it has samples on (whole years of data). *)
Definition regular (data : list obs) : Prop :=
  forall r1 r2, r1 ∈ cell_days data -> r2 ∈ cell_days data ->
    cd_x r1 = cd_x r2 -> cd_y r1 = cd_y r2 ->
    1 <= cd_ytime r1 <= 365 -> 1 <= cd_ytime r2 <= 365 ->
    length (cd_t2m r1) = length (cd_t2m r2).

End HeatwaveDetection.

(** ** SciPy: hierarchical clustering *)

(** [scipy.cluster.hierarchy.linkage(dv, method='average')] and
    [fcluster(lm, t, criterion='maxclust')], by their documented
    behaviour, on exact distances. *)
Module Scipy.

(** A row of the linkage matrix: the two clusters merged, their
    distance, and the number of observations of the new cluster, whose
    id is [n] plus the index of the row. *)
Record lrow : Type := {
  z_a : nat;
  z_b : nat;
  z_dist : Q;
  z_count : nat
}.

(** The number [n] of observations of a condensed distance matrix of
    [m] entries: [n * (n - 1) / 2 = m].  An empty matrix has none. *)
Definition num_obs (m : nat) : option nat :=
  snd <$> list_find (fun n => (n * (n - 1) = 2 * m)%nat) (seq 2 m).

(** Entry [(a, b)] of the condensed matrix. *)
Definition condensed (n : nat) (dv : list Q) (a b : nat) : Q :=
  let i := Nat.min a b in
  let j := Nat.max a b in
  nth (n * i - (i * (i + 1)) / 2 + (j - i - 1))%nat dv 0%Q.

Record cluster : Type := {
  c_id : nat;
  c_size : nat
}.

Definition c_default : cluster := {| c_id := 0; c_size := 0 |}.

(** The pair of positions of the two closest active clusters. *)
Definition closest (d : nat -> nat -> Q) (active : list cluster)
  : option (nat * nat) :=
  let dpos (p : nat * nat) :=
    d (c_id (nth p.1 active c_default)) (c_id (nth p.2 active c_default)) in
  foldl (fun best p =>
           match best with
           | None => Some p
           | Some q => if Qlt_le_dec (dpos p) (dpos q) then Some p else Some q
           end) None (DeepGraph.pairs (length active)).

(** Average linkage: the distance of a cluster to a merged cluster is the
    mean of its distances to the two parts, weighted by their sizes. *)
Definition merged_dist (d : nat -> nat -> Q) (a b : cluster) (new : nat)
  : nat -> nat -> Q :=
  fun u v =>
    let avg c := ((inject_Z (Z.of_nat (c_size a)) * d (c_id a) c
                   + inject_Z (Z.of_nat (c_size b)) * d (c_id b) c)
                  / inject_Z (Z.of_nat (c_size a + c_size b)))%Q in
    if decide (u = new) then avg v
    else if decide (v = new) then avg u
    else d u v.

Fixpoint agglomerate (steps : nat) (next : nat) (d : nat -> nat -> Q)
    (active : list cluster) : res (list lrow) :=
  match steps with
  | O => Ok []
  | S steps' =>
      p ← of_option ValueError (closest d active);
      let a := nth p.1 active c_default in
      let b := nth p.2 active c_default in
      let new := {| c_id := next; c_size := (c_size a + c_size b)%nat |} in
      let row := {| z_a := Nat.min (c_id a) (c_id b);
                    z_b := Nat.max (c_id a) (c_id b);
                    z_dist := d (c_id a) (c_id b);
                    z_count := c_size new |} in
      rows ← agglomerate steps' (S next) (merged_dist d a b next)
               (delete p.1 (delete p.2 active) ++ [new]);
      Ok (row :: rows)
  end.

(** The distances must be finite. *)
Definition finite (dv : list outcome) : res (list Q) :=
  res_mapM (fun o => match o with
                     | Value q => Ok q
                     | DivisionByZero => Raise ValueError
                     end) dv.

Definition linkage (dv : list outcome) : res (list lrow) :=
  dv ← finite dv;
  n ← of_option ValueError (num_obs (length dv));
  agglomerate (n - 1) n (condensed n dv)
    ((fun i => {| c_id := i; c_size := 1 |}) <$> seq 0 n).

(** An observation of cluster [id]. *)
Fixpoint rep (fuel : nat) (n : nat) (lm : list lrow) (id : nat) : nat :=
  match fuel with
  | O => id
  | S fuel' =>
      if decide (id < n)%nat then id
      else match lm !! (id - n)%nat with
           | Some row => rep fuel' n lm (z_a row)
           | None => id
           end
  end.

(** The flat clusters after the first [k] merges. *)
Definition cut (lm : list lrow) (k : nat) : list nat :=
  let n := S (length lm) in
  let labels :=
    DeepGraph.connected_components n
      ((fun row => (rep (length lm) n lm (z_a row), rep (length lm) n lm (z_b row)))
         <$> take k lm) in
  (fun l => S (default 0%nat (fst <$> list_find (fun l' => l' = l) (remove_dups labels))))
    <$> labels.

(** [k] merges end at a height of the tree: the next merge is higher. *)
Definition at_height (lm : list lrow) (k : nat) : bool :=
  match k with
  | O => true
  | S k' =>
      match lm !! k', lm !! k with
      | Some r, Some r' => negb (Qle_bool (z_dist r') (z_dist r))
      | _, _ => true
      end
  end.

(** [fcluster(lm, t, criterion='maxclust')]: the lowest cut of the tree
    that leaves no more than [t] flat clusters (the whole tree in one
    cluster when there is none). *)
Definition fcluster (lm : list lrow) (t : Z) : list nat :=
  let n := S (length lm) in
  let ok k := bool_decide (Z.of_nat (n - k) <= t) && at_height lm k in
  match list_find (fun k => ok k = true) (seq 0 n) with
  | Some (_, k) => cut lm k
  | None => cut lm (length lm)
  end.

End Scipy.

(** ** [clustering_step2.py] *)

Module ClusteringStep2.

(** [cpv['F_upgma'].value_counts().index.values]: the labels, the most
    frequent first. *)
Definition more_frequent (labels : list nat) (a b : nat) : Prop :=
  (DeepGraph.value_count labels b <= DeepGraph.value_count labels a)%nat.

Global Instance more_frequent_dec labels : RelDecision (more_frequent labels) :=
  fun a b => le_dec (DeepGraph.value_count labels b) (DeepGraph.value_count labels a).

Definition value_counts_index (labels : list nat) : list nat :=
  merge_sort (more_frequent labels) (remove_dups labels).

(** [fdic = {j: i for i, j in enumerate(f)}] and [fdic[x]]. *)
Definition fdic (f : list nat) (x : nat) : res nat :=
  of_option KeyError (fst <$> list_find (fun j => j = x) f).

Definition relabel_by_size (labels : list nat) : res (list nat) :=
  res_mapM (fdic (value_counts_index labels)) labels.

Definition one_minus (o : outcome) : outcome :=
  match o with
  | Value q => Value (1 - q)
  | DivisionByZero => DivisionByZero
  end.

(** The relation [cp_intersection_strength] computes on the pairs [e]. *)
Definition strengths (g_ids : list (gset Z)) (e : list (nat * nat))
  : list outcome :=
  (fun p : nat * nat =>
     let s := g_ids !!! p.1 in
     let t := g_ids !!! p.2 in
     ConSep.cp_intersection_strength (size s) (size t)
       (ConSep.cp_node_intersection s t)) <$> e.

(** [linkage], [fcluster] and the relabelling, from the condensed
    distance matrix [dv]. *)
Definition flat_clusters (dv : list outcome) (no_clusters : Z) : res (list nat) :=
  lm ← Scipy.linkage dv;
  relabel_by_size (Scipy.fcluster lm no_clusters).


End ClusteringStep2.

(** ** Example tables *)

Module Examples.

(** One cell with a sample on day 350 and another on day 16. *)
Definition two_days : list HeatwaveDetection.obs :=
  [ {| HeatwaveDetection.x := 0; HeatwaveDetection.y := 0;
       HeatwaveDetection.year := 2000; HeatwaveDetection.ytime := 350;
       HeatwaveDetection.t2m := 5 |};
    {| HeatwaveDetection.x := 0; HeatwaveDetection.y := 0;
       HeatwaveDetection.year := 2000; HeatwaveDetection.ytime := 16;
       HeatwaveDetection.t2m := 9 |} ].

(** The last two days of a leap year at one cell. *)
Definition dec_30 : HeatwaveDetection.obs :=
  {| HeatwaveDetection.x := 0; HeatwaveDetection.y := 0;
     HeatwaveDetection.year := 2000; HeatwaveDetection.ytime := 365;
     HeatwaveDetection.t2m := 10 |}.

Definition dec_31 : HeatwaveDetection.obs :=
  {| HeatwaveDetection.x := 0; HeatwaveDetection.y := 0;
     HeatwaveDetection.year := 2000; HeatwaveDetection.ytime := 366;
     HeatwaveDetection.t2m := 30 |}.

Definition leap_year_end : list HeatwaveDetection.obs := [dec_30; dec_31].

(** A single sample. *)
Definition one_sample : list HeatwaveDetection.obs := [dec_30].

(** Two neighbouring cells, extreme on two consecutive days each. *)
Definition ev (t cx cy g : Z) : Cppv.node :=
  {| Cppv.time := t; Cppv.itime := t - 100; Cppv.x := cx; Cppv.y := cy;
     Cppv.g_id := g; Cppv.magnitude := 1 |}.

Definition two_day_event : list Cppv.node :=
  [ ev 100 0 0 1; ev 100 1 0 2; ev 101 0 0 1; ev 101 1 0 2 ].

(** Two cells, extreme in turn on three consecutive days, and the edges
    between the events of consecutive days. *)
Definition three_day_event : list Cppv.node :=
  [ ev 100 0 0 1; ev 101 1 0 2; ev 102 0 0 1 ].

Definition three_day_edges : list (nat * nat) := [ (0, 1); (1, 2) ]%nat.

(** The events of the spec's example: cell (0, 0) on one day, cells (1, 0)
    and (5, 5) on the next. *)
Definition three_events : list Cppv.node :=
  [ ev 100 0 0 1; ev 101 1 0 2; ev 101 5 5 3 ].


End Examples.

(** ** Single nodes *)

Module Singles.

(** A row is single when it is connected to no other row of the table. *)
Definition single (n : nat) (e : list (nat * nat)) (i : nat) : Prop :=
  forall k, (k < n)%nat -> Partition.connected n e i k -> k = i.

(** Two events five days and nine cells apart, then one cell on two
    consecutive days, and the edge between the last two events. *)
Definition two_singles : list Cppv.node :=
  [ Examples.ev 100 0 0 1; Examples.ev 105 9 9 2;
    Examples.ev 110 3 3 3; Examples.ev 111 3 3 3 ].

Definition two_singles_edges : list (nat * nat) := [ (2, 3) ]%nat.

End Singles.

(** ** [Heatwave_Detection.py]: the day index *)

Module Itime.

(** [pd.date_range(tmin, tmax, freq='D')], on day numbers. *)
Definition date_range (tmin tmax : Z) : list Z := seqZ tmin (tmax - tmin + 1).

(** [{time: itime for itime, time in enumerate(times)}]. *)
Definition tdic (times : list Z) : gmap Z Z :=
  list_to_map (zip times (seqZ 0 (Z.of_nat (length times)))).

(** [.astype(np.uint16)]. *)
Definition uint16 (z : Z) : Z := z `mod` 65536.

Definition set_itime (r : Cppv.node) (it : Z) : Cppv.node :=
  {| Cppv.time := Cppv.time r; Cppv.itime := it; Cppv.x := Cppv.x r;
     Cppv.y := Cppv.y r; Cppv.g_id := Cppv.g_id r;
     Cppv.magnitude := Cppv.magnitude r |}.

(** The [itime] column of the table of extreme events: the position of
    the day of each event in the range of days from the first to the last
    event, as an unsigned 16-bit integer.  (An empty table has no first
    day: [pd.date_range] rejects it.) *)
Definition add_itime (extr : list Cppv.node) : res (list Cppv.node) :=
  match extr with
  | [] => Raise ValueError
  | _ :: _ =>
      let times := date_range (Cppv.amin (Cppv.time <$> extr))
                              (Cppv.amax (Cppv.time <$> extr)) in
      let d := tdic times in
      res_mapM (fun r => it ← of_option KeyError (d !! Cppv.time r);
                         Ok (set_itime r (uint16 it))) extr
  end.

End Itime.

(** ** [seasonal_analysis_1.py], [seasonal_clustering_step2.py]: seasons *)

Module SeasonalAnalysis.

(** [get_meteorological_season], on a day of the year that may be the
    mean day of a heat wave, hence a fraction. *)
Definition get_meteorological_season (day_of_year : Q) : Z :=
  if Qle_bool 335 day_of_year || Qle_bool day_of_year 59 then 0
  else if Qle_bool 60 day_of_year && Qle_bool day_of_year 151 then 1
  else if Qle_bool 152 day_of_year && Qle_bool day_of_year 243 then 2
  else if Qle_bool 244 day_of_year && Qle_bool day_of_year 334 then 3
  else -1.

Definition season_names : gmap Z string :=
  list_to_map [ (0, "DJF_Winter"%string); (1, "MAM_Spring"%string);
                (2, "JJA_Summer"%string); (3, "SON_Fall"%string) ].

(** [season_names.get(season_code, 'Unknown')]. *)
Definition season_name (season_code : Z) : string :=
  default "Unknown"%string (season_names !! season_code).

Definition season_labels : gmap Z string :=
  list_to_map [ (0, "DJF"%string); (1, "MAM"%string);
                (2, "JJA"%string); (3, "SON"%string) ].

Definition season_label (season_code : Z) : string :=
  default "UNK"%string (season_labels !! season_code).

End SeasonalAnalysis.

(** ** [clustering_step2.py]: the families of the nodes *)

Module NodeFamilies.

(** The keys of [cpv.groupby('F_upgma')], in ascending order. *)
Definition groupby_keys (labels : list nat) : list nat :=
  merge_sort le (remove_dups labels).

(** [it = gcpv.apply(lambda x: x.index.values)]: for each key, the index
    values (the [cp] labels) of the supernodes of the group. *)
Definition it (index labels : list nat) : list (list nat) :=
  (fun k => (filter (fun r : nat * nat => r.2 = k) (zip index labels)).*1)
    <$> groupby_keys labels.

(** [gvv.v.loc[gvv.v.cp.isin(members), 'F_upgma'] = F]. *)
Definition assign (cps : list nat) (col : list Z) (members : list nat) (F : nat)
  : list Z :=
  zip_with (fun c f => if bool_decide (c ∈ members) then Z.of_nat F else f) cps col.

(** The [F_upgma] column of the nodes: -1 everywhere, then the loop over
    [range(len(it))].  ([it.iloc[F]] is always in range there.) *)
Definition F_upgma_column (index labels cps : list nat) : list Z :=
  let groups := it index labels in
  foldl (fun col F => assign cps col (groups !!! F) F)
    (replicate (length cps) (-1)) (seq 0 (length groups)).

End NodeFamilies.

(** ** [seasonal_clusters.py]: the tables of the seasons *)

Module SeasonTables.

Global Instance season_eq_dec : EqDecision SeasonalClusters.season.
Proof. solve_decision. Defined.

(** [season_data = gv[gv['season'] == season]], on the rows' days of the
    year.  ([np.nan] equals no number.) *)
Definition season_data (doys : list Z) (s : Z) : list Z :=
  filter (fun doy => SeasonalClusters.assign_season doy = SeasonalClusters.Season s) doys.

(** The tables of the loop [for season in range(1, 5)]. *)
Definition season_tables (doys : list Z) : list (list Z) :=
  season_data doys <$> seqZ 1 4.

End SeasonTables.

(** * Properties *)

(** ** The examples of the specification *)

(** On the edge between the first two events, they form one component
    and the third is a single node under the label 0. *)
Lemma three_events_components :
  DeepGraph.append_cp (length Examples.three_events) [(0, 1)]%nat = [1; 1; 0]%nat.
Proof. vm_compute. reflexivity. Qed.

(** Heat waves over [{1, 2, 3}] and [{2, 3}] have intersection strength
    1, hence distance 0. *)
Lemma family_AB_strength :
  exists q,
    ConSep.cp_intersection_strength 3 2
      (ConSep.cp_node_intersection {[1; 2; 3]} {[2; 3]}) = Value q
    /\ (q == 1)%Q.
Proof. eexists. split; vm_compute; reflexivity. Qed.

(** ** Seasons *)

Section Seasons.
Import SeasonalClusters.

Lemma assign_season_1_360 (doy : Z) :
  1 <= doy <= 360 -> is_season (assign_season doy).
Proof.
  intros Hdoy. unfold assign_season, is_season.
  repeat case_bool_decide; auto; lia.
Qed.

Lemma assign_season_NaN (doy : Z) :
  assign_season doy = NaN <-> ~ 1 <= doy <= 360.
Proof.
  unfold assign_season. repeat case_bool_decide; split; intros; try discriminate; try lia; reflexivity.
Qed.

(** C9: the season of a day of the year in [1,366] is not always one of the
    four seasons: day 361 (and every day up to 366) falls into the
    [else] branch written for invalid days and gets [np.nan]. *)
Theorem assign_season_not_total_on_year :
  1 <= 361 <= 366 /\ assign_season 361 = NaN /\ ~ is_season (assign_season 361)
  /\ Forall (fun doy => assign_season doy = NaN) (seqZ 361 6).
Proof.
  split; [lia|]. split; [reflexivity|]. split.
  - unfold is_season. vm_compute. intros [H|[H|[H|H]]]; discriminate.
  - repeat constructor.
Qed.

End Seasons.

(** ** Magnitudes *)

Section Magnitudes.
Import Magnitude.

Lemma fdiv_nonzero (a b : Q) : ~ (b == 0)%Q -> fdiv a b = Value (a / b).
Proof.
  intros Hb. unfold fdiv. destruct (Qeq_bool b 0) eqn:E; [|reflexivity].
  apply Qeq_bool_iff in E. contradiction.
Qed.

Lemma fdiv_zero (a b : Q) : (b == 0)%Q -> fdiv a b = DivisionByZero.
Proof.
  intros Hb. unfold fdiv. apply Qeq_bool_iff in Hb. rewrite Hb. reflexivity.
Qed.

(** Whenever the two percentiles coincide and the temperature is above
    them, the quotient of [calc_mag] has a zero denominator. *)
Lemma calc_mag_degenerate (data : row) :
  (t2m_amax_perc75 data == t2m_amax_perc25 data)%Q ->
  (t2m_amax_perc25 data < t2m data)%Q ->
  calc_mag data = DivisionByZero.
Proof.
  intros Heq Hlt. unfold calc_mag.
  destruct (Qlt_le_dec _ _) as [_|Hle].
  - apply fdiv_zero. rewrite Heq. ring.
  - exfalso. exact (Qlt_not_le _ _ Hlt Hle).
Qed.

(** C3: annual maxima 10, 10, 10, 10, 20 have both percentiles equal to
    10; for the extreme record of 20 degrees at that cell [calc_mag] does
    not return 0: it divides by zero. *)
Theorem calc_mag_degenerate_percentiles :
  exists p25 p75,
    perc25 [10; 10; 10; 10; 20]%Q = Some p25 /\
    perc75 [10; 10; 10; 10; 20]%Q = Some p75 /\
    (p75 == p25)%Q /\
    calc_mag {| t2m := 20; t2m_amax_perc25 := p25; t2m_amax_perc75 := p75 |}
      = DivisionByZero /\
    calc_mag {| t2m := 20; t2m_amax_perc25 := p25; t2m_amax_perc75 := p75 |}
      <> Value 0.
Proof.
  eexists _, _. split; [reflexivity|]. split; [reflexivity|].
  split; [reflexivity|]. split; [reflexivity|]. discriminate.
Qed.

(** C7: with [p25 < p75] the magnitude of a record of temperature [v] is
    [(v - p25) / (p75 - p25)] when [v > p25] and 0 when [v <= p25]; it is
    never negative. *)
Theorem calc_mag_nondegenerate (data : row) :
  (t2m_amax_perc25 data < t2m_amax_perc75 data)%Q ->
  ((t2m_amax_perc25 data < t2m data)%Q ->
     calc_mag data
     = Value ((t2m data - t2m_amax_perc25 data)
              / (t2m_amax_perc75 data - t2m_amax_perc25 data))) /\
  ((t2m data <= t2m_amax_perc25 data)%Q -> calc_mag data = Value 0) /\
  (exists m, calc_mag data = Value m /\ (0 <= m)%Q).
Proof.
  intros Hp.
  assert (Hpos : (0 < t2m_amax_perc75 data - t2m_amax_perc25 data)%Q).
  { rewrite <- (Qplus_opp_r (t2m_amax_perc25 data)).
    apply Qplus_lt_l. exact Hp. }
  assert (Hnz : ~ (t2m_amax_perc75 data - t2m_amax_perc25 data == 0)%Q).
  { intros E. rewrite E in Hpos. exact (Qlt_irrefl _ Hpos). }
  unfold calc_mag. destruct (Qlt_le_dec _ _) as [Hlt|Hle].
  - rewrite (fdiv_nonzero _ _ Hnz). split; [reflexivity|]. split.
    + intros Hle. exfalso. exact (Qlt_not_le _ _ Hlt Hle).
    + eexists. split; [reflexivity|].
      apply Qle_shift_div_l; [exact Hpos|].
      rewrite Qmult_0_l.
      rewrite <- (Qplus_opp_r (t2m_amax_perc25 data)).
      apply Qplus_le_l. apply Qlt_le_weak. exact Hlt.
  - split; [intros Hlt; exfalso; exact (Qlt_not_le _ _ Hlt Hle)|].
    split; [reflexivity|].
    exists 0%Q. split; [reflexivity|]. apply Qle_refl.
Qed.

Lemma calc_mag_nondegenerate_witness :
  let data := {| t2m := 20; t2m_amax_perc25 := 10; t2m_amax_perc75 := 30 |} in
  (t2m_amax_perc25 data < t2m_amax_perc75 data)%Q /\
  exists m, calc_mag data = Value m /\ (0 <= m)%Q.
Proof.
  intros data.
  assert (H : (t2m_amax_perc25 data < t2m_amax_perc75 data)%Q) by reflexivity.
  split; [exact H|]. exact (proj2 (proj2 (calc_mag_nondegenerate data H))).
Defined.

End Magnitudes.

(** ** Retention of components *)

Section Retention.
Import Cppv.

Lemma keep_iff (r : supernode) (b : Z) :
  keep r b = true <-> dt r > 1 /\ Z.of_nat (n_unique_g_ids r) > b.
Proof.
  unfold keep, min_duration. rewrite andb_true_iff, !bool_decide_eq_true.
  reflexivity.
Qed.

Lemma timespan_features (c : nat) (members : list node) :
  timespan (features c members) = dt (features c members) + 1.
Proof. reflexivity. Qed.

Lemma supernodes_features (e : list (nat * nat)) (extr_data : list node)
    (r : supernode) :
  r ∈ supernodes e extr_data -> exists c members, r = features c members.
Proof.
  unfold supernodes. intros Hr.
  apply list_elem_of_fmap in Hr as [g [-> _]]. eauto.
Qed.

(** C2, as claimed, fails: a component over two calendar days and two
    grid cells is dropped with [b = 0]. *)
Lemma two_day_component_dropped :
  ~ (forall (c : nat) (members : list node) (b : Z),
       keep (features c members) b = true <->
       timespan (features c members) > 1 /\
       Z.of_nat (n_unique_g_ids (features c members)) > b).
Proof.
  intros H. specialize (H 1%nat Examples.two_day_event 0).
  destruct H as [_ H].
  assert (Hk : keep (features 1 Examples.two_day_event) 0 = true).
  { apply H. vm_compute. split; reflexivity. }
  vm_compute in Hk. discriminate Hk.
Qed.

(** C2, amended: whatever the edge table, a component is retained iff its
    time span exceeds 2 days (it covers at least 3 calendar days) and it
    has more than [b] grid cells. *)
Theorem create_cpv_retention (e : list (nat * nat)) (extr_data : list node)
    (b : Z) (r : supernode) :
  r ∈ (create_cpv_from_edges e extr_data b).2 <->
  r ∈ supernodes e extr_data /\ timespan r > 2 /\ Z.of_nat (n_unique_g_ids r) > b.
Proof.
  unfold create_cpv_from_edges. cbn [snd]. rewrite list_elem_of_filter, keep_iff.
  split.
  - intros [[Hdt Hn] Hr]. split; [exact Hr|].
    destruct (supernodes_features _ _ _ Hr) as (c & members & ->).
    rewrite timespan_features. lia.
  - intros (Hr & Hts & Hn). split; [|exact Hr].
    destruct (supernodes_features _ _ _ Hr) as (c & members & ->).
    rewrite timespan_features in Hts. lia.
Qed.

End Retention.

(** ** Threshold windows and leap days *)

Section Thresholds.
Import HeatwaveDetection.

Lemma elem_of_arange (a b k : Z) : k ∈ Numpy.arange a b <-> a <= k < b.
Proof. unfold Numpy.arange. rewrite elem_of_seqZ. lia. Qed.

Lemma window_check :
  forallb (fun i =>
             bool_decide
               (slice time_window i (i + 31)
                = (fun j => (Z.of_nat i + j - 16) `mod` 365 + 1) <$> seqZ 0 31))
          (seq 0 366) = true.
Proof. vm_compute. reflexivity. Qed.

(** The window of the loop index [i], which gives the threshold of day
    [i + 1], holds the 31 days from [i - 15] to [i + 15], wrapped into
    1..365: it is centred on day [i], the day before. *)
Lemma window_shape (i : nat) :
  (i < 366)%nat ->
  slice time_window i (i + 31)
  = (fun j => (Z.of_nat i + j - 16) `mod` 365 + 1) <$> seqZ 0 31.
Proof.
  intros Hi. pose proof window_check as H.
  rewrite forallb_forall in H.
  assert (Hin : In i (seq 0 366)) by (apply in_seq; lia).
  specialize (H i Hin). cbn beta in H.
  apply bool_decide_eq_true in H. exact H.
Qed.

(** C4: the window of day 1 is not centred on day 1: it holds the days
    350..365 and 1..15, so day 350 is pooled and day 16 is not; with one
    sample of 5 degrees on day 350 and one of 9 degrees on day 16 the
    threshold of day 1 is 5. *)
Theorem window_of_day_1 :
  slice time_window 0 31 = Numpy.arange 350 366 ++ Numpy.arange 1 16 /\
  (350 ∈ slice time_window 0 31) /\
  (16 ∉ slice time_window 0 31) /\
  (exists tmp2,
     threshold_table Examples.two_days = Ok tmp2 /\
     (Qred ∘ thresh) <$> filter (fun r => th_ytime r = 1) tmp2 = [5%Q]).
Proof.
  assert (Hw : slice time_window 0 31 = Numpy.arange 350 366 ++ Numpy.arange 1 16)
    by reflexivity.
  split; [exact Hw|]. rewrite Hw. split; [|split].
  - rewrite elem_of_app, !elem_of_arange. lia.
  - rewrite elem_of_app, !elem_of_arange. lia.
  - eexists. split; [vm_compute; reflexivity|]. vm_compute. reflexivity.
Qed.

Lemma elem_of_filter_by_values_v {A V} `{EqDecision V} (col : A -> V)
    (values : list V) (v : list A) (r : A) :
  r ∈ DeepGraph.filter_by_values_v col values v <-> r ∈ v /\ col r ∈ values.
Proof.
  unfold DeepGraph.filter_by_values_v, Numpy.isin.
  rewrite list_elem_of_filter, bool_decide_eq_true. tauto.
Qed.

(** C10, as claimed, fails: the record of day 366 is still there after
    extraction. *)
Lemma leap_day_reaches_extraction :
  ~ (forall (vt : list obs) (rows : list result_row),
       (forall r, r ∈ vt -> 1 <= ytime r <= 366) ->
       extr vt = Ok rows ->
       forall r, r ∈ rows -> 1 <= ytime (r_obs r) <= 365).
Proof.
  intros H.
  specialize (H Examples.leap_year_end
                (match extr Examples.leap_year_end with
                 | Ok rows => rows
                 | Raise _ => []
                 end)).
  assert (Hvalid : forall r, r ∈ Examples.leap_year_end -> 1 <= ytime r <= 366).
  { intros r Hr. unfold Examples.leap_year_end in Hr.
    rewrite !elem_of_cons, elem_of_nil in Hr.
    destruct Hr as [->|[->|[]]]; cbn; lia. }
  specialize (H Hvalid ltac:(vm_compute; reflexivity)
                {| r_obs := Examples.dec_31; r_thresh := 1000 # 100 |}).
  assert (Hin : {| r_obs := Examples.dec_31; r_thresh := 1000 # 100 |}
                ∈ match extr Examples.leap_year_end with
                  | Ok rows => rows
                  | Raise _ => []
                  end).
  { apply list_elem_of_lookup. exists 1%nat. vm_compute. reflexivity. }
  specialize (H Hin). cbn in H. lia.
Qed.

(** C10, amended: before the thresholds are computed the records of day
    366 are removed from the table the samples are pooled from, and every
    threshold attached to a record comes from that table. *)
Theorem leap_day_removed_from_pool (vt : list obs) :
  (forall r, r ∈ g_t_v vt <-> r ∈ vt /\ 0 <= ytime r <= 365) /\
  (forall rows,
     result vt = Ok rows ->
     exists tmp2,
       threshold_table (g_t_v vt) = Ok tmp2 /\
       forall row, row ∈ rows ->
         exists th, th ∈ tmp2 /\ r_thresh row = thresh th /\
                    th_ytime th = ytime (r_obs row) /\
                    th_x th = x (r_obs row) /\ th_y th = y (r_obs row)).
Proof.
  split.
  - intros r. unfold g_t_v.
    rewrite elem_of_filter_by_values_v, elem_of_arange. intuition lia.
  - intros rows. unfold result.
    destruct (threshold_table (g_t_v vt)) as [tmp2|e]; cbn; [|discriminate].
    intros [= <-]. exists tmp2. split; [reflexivity|].
    intros row Hrow. unfold merge in Hrow.
    apply list_elem_of_bind in Hrow as (r & Hrow & _).
    apply list_elem_of_fmap in Hrow as (th & -> & Hth).
    apply list_elem_of_filter in Hth as [(Hd & Hx & Hy) Hth].
    exists th. cbn. auto.
Qed.

End Thresholds.

(** ** The event graph *)

Section Graph.
Import Cppv.

Lemma elem_of_pairs (n s t : nat) :
  (s, t) ∈ DeepGraph.pairs n <-> (s < t < n)%nat.
Proof.
  unfold DeepGraph.pairs. rewrite list_elem_of_bind. split.
  - intros (s' & Hst & Hs). apply list_elem_of_fmap in Hst as (t' & [= -> ->] & Ht).
    apply elem_of_seq in Hs, Ht. lia.
  - intros H. exists s. split.
    + apply list_elem_of_fmap. exists t. split; [reflexivity|]. apply elem_of_seq. lia.
    + apply elem_of_seq. lia.
Qed.

Lemma mask_index_fst (f : nat -> nat -> bool) (c : list (nat * nat)) :
  ConSep.mask_index (c.*1) (zip_with f (c.*1) (c.*2))
  = (filter (fun p => f p.1 p.2 = true) c).*1.
Proof.
  unfold ConSep.mask_index. induction c as [|[s t] c IH]; [reflexivity|].
  cbn [fmap list_fmap zip_with fst snd]. rewrite !filter_cons. cbn [fst snd].
  destruct (f s t) eqn:E.
  - rewrite !decide_True by reflexivity. cbn. f_equal. exact IH.
  - rewrite !decide_False by discriminate. exact IH.
Qed.

Lemma mask_index_snd (f : nat -> nat -> bool) (c : list (nat * nat)) :
  ConSep.mask_index (c.*2) (zip_with f (c.*1) (c.*2))
  = (filter (fun p => f p.1 p.2 = true) c).*2.
Proof.
  unfold ConSep.mask_index. induction c as [|[s t] c IH]; [reflexivity|].
  cbn [fmap list_fmap zip_with fst snd]. rewrite !filter_cons. cbn [fst snd].
  destruct (f s t) eqn:E.
  - rewrite !decide_True by reflexivity. cbn. f_equal. exact IH.
  - rewrite !decide_False by discriminate. exact IH.
Qed.

Lemma relation_mask (g : Z -> bool) (h : Z -> Z -> Z) (col : list Z)
    (l1 l2 : list nat) :
  g <$> zip_with h (DeepGraph.take_at col l1) (DeepGraph.take_at col l2)
  = zip_with (fun a b => g (h (col !!! a) (col !!! b))) l1 l2.
Proof.
  unfold DeepGraph.take_at. revert l2.
  induction l1 as [|a l1 IH]; intros [|b l2]; try reflexivity.
  cbn. f_equal. apply IH.
Qed.

Local Abbreviation near col con :=
  (fun p : nat * nat =>
     (fun s t : nat => bool_decide (Z.abs (con (col !!! s) (col !!! t)) <= 1))
       p.1 p.2 = true).

Local Abbreviation ft_near col ftt :=
  (fun p : nat * nat =>
     (fun s t : nat => bool_decide (col !!! t - col !!! s <= ftt)) p.1 p.2 = true).

Lemma ft_selector_filter (ftf : list Z) (ftt : Z) (c : list (nat * nat)) :
  DeepGraph.ft_selector
    (zip_with Z.sub (DeepGraph.take_at ftf (c.*2)) (DeepGraph.take_at ftf (c.*1)))
    ftt (c.*1) (c.*2)
  = ((filter (ft_near ftf ftt) c).*1, (filter (ft_near ftf ftt) c).*2).
Proof.
  unfold DeepGraph.ft_selector.
  assert (Hm : (fun r => bool_decide (r <= ftt))
                 <$> zip_with Z.sub (DeepGraph.take_at ftf (c.*2))
                       (DeepGraph.take_at ftf (c.*1))
               = zip_with (fun s t : nat => bool_decide (ftf !!! t - ftf !!! s <= ftt))
                   (c.*1) (c.*2)).
  { unfold DeepGraph.take_at. induction c as [|[s t] c IH]; [reflexivity|].
    cbn. f_equal. exact IH. }
  rewrite Hm, mask_index_fst, mask_index_snd. reflexivity.
Qed.

Lemma s_grid_2d_dx_filter (col : list Z) (c : list (nat * nat)) :
  ConSep.s_grid_2d_dx
    (zip_with ConSep.grid_2d_dx (DeepGraph.take_at col (c.*1))
       (DeepGraph.take_at col (c.*2))) (c.*1) (c.*2)
  = ((filter (near col ConSep.grid_2d_dx) c).*1,
     (filter (near col ConSep.grid_2d_dx) c).*2).
Proof.
  unfold ConSep.s_grid_2d_dx. rewrite <- list_fmap_compose, relation_mask.
  rewrite mask_index_fst, mask_index_snd. reflexivity.
Qed.

Lemma s_grid_2d_dy_filter (col : list Z) (c : list (nat * nat)) :
  ConSep.s_grid_2d_dy
    (zip_with ConSep.grid_2d_dy (DeepGraph.take_at col (c.*1))
       (DeepGraph.take_at col (c.*2))) (c.*1) (c.*2)
  = ((filter (near col ConSep.grid_2d_dy) c).*1,
     (filter (near col ConSep.grid_2d_dy) c).*2).
Proof.
  unfold ConSep.s_grid_2d_dy. rewrite <- list_fmap_compose, relation_mask.
  rewrite mask_index_fst, mask_index_snd. reflexivity.
Qed.

Lemma select_found (connectors : list DeepGraph.connector)
    (st : list nat * list nat) (sel : DeepGraph.selector) (c : DeepGraph.connector) :
  DeepGraph.find_connector (DeepGraph.s_relation sel) connectors = Some c ->
  DeepGraph.select connectors (Ok st) sel
  = Ok (DeepGraph.s_fct sel
          (zip_with (DeepGraph.c_fct c)
             (DeepGraph.take_at (DeepGraph.c_feature c) st.1)
             (DeepGraph.take_at (DeepGraph.c_feature c) st.2))
          st.1 st.2).
Proof. intros H. unfold DeepGraph.select. cbn. rewrite H. reflexivity. Qed.

(** With connectors that return their relations under the names the
    selectors ask for, the call keeps the pairs at most one step of the
    fast-track feature and one cell apart. *)
Lemma create_edges_ft_named (ftf cx cy : list Z) :
  DeepGraph.create_edges_ft ftf 1
    [ {| DeepGraph.c_returns := "dx"; DeepGraph.c_feature := cx;
         DeepGraph.c_fct := ConSep.grid_2d_dx |};
      {| DeepGraph.c_returns := "dy"; DeepGraph.c_feature := cy;
         DeepGraph.c_fct := ConSep.grid_2d_dy |} ]
    [ {| DeepGraph.s_relation := ConSep.s_grid_2d_dx_relation;
         DeepGraph.s_fct := ConSep.s_grid_2d_dx |};
      {| DeepGraph.s_relation := ConSep.s_grid_2d_dy_relation;
         DeepGraph.s_fct := ConSep.s_grid_2d_dy |} ]
  = Ok (filter (near cy ConSep.grid_2d_dy)
          (filter (near cx ConSep.grid_2d_dx)
             (filter (ft_near ftf 1) (DeepGraph.pairs (length ftf))))).
Proof.
  set (c1 := {| DeepGraph.c_returns := "dx"; DeepGraph.c_feature := cx;
                DeepGraph.c_fct := ConSep.grid_2d_dx |}).
  set (c2 := {| DeepGraph.c_returns := "dy"; DeepGraph.c_feature := cy;
                DeepGraph.c_fct := ConSep.grid_2d_dy |}).
  set (s1 := {| DeepGraph.s_relation := ConSep.s_grid_2d_dx_relation;
                DeepGraph.s_fct := ConSep.s_grid_2d_dx |}).
  set (s2 := {| DeepGraph.s_relation := ConSep.s_grid_2d_dy_relation;
                DeepGraph.s_fct := ConSep.s_grid_2d_dy |}).
  assert (Hdx : DeepGraph.find_connector (DeepGraph.s_relation s1) [c1; c2] = Some c1)
    by reflexivity.
  assert (Hdy : DeepGraph.find_connector (DeepGraph.s_relation s2) [c1; c2] = Some c2)
    by reflexivity.
  unfold DeepGraph.create_edges_ft.
  change (forallb _ [c1; c2]) with true. cbv iota.
  rewrite ft_selector_filter. cbn [foldl].
  rewrite (select_found _ _ s1 c1 Hdx). cbn [DeepGraph.s_fct DeepGraph.c_fct
    DeepGraph.c_feature c1 s1 fst snd].
  rewrite s_grid_2d_dx_filter.
  rewrite (select_found _ _ s2 c2 Hdy). cbn [DeepGraph.s_fct DeepGraph.c_fct
    DeepGraph.c_feature c2 s2 fst snd].
  rewrite s_grid_2d_dy_filter. cbn [mbind res_bind fst snd].
  rewrite zip_fst_snd. reflexivity.
Qed.

(** The connectors of [con_sep.py] return expressions, not names: the
    relations [dx] and [dy] the selectors ask for are computed by no
    connector, and the call raises on every table. *)
Lemma edges_raise (v : list node) : edges v = Raise ValueError.
Proof. reflexivity. Qed.

Lemma create_cpv_raises (extr_data : list node) (b : Z) :
  create_cpv extr_data b = Raise ValueError.
Proof. unfold create_cpv. rewrite edges_raise. reflexivity. Qed.

Global Instance time_le_transitive : Transitive time_le.
Proof. unfold time_le. intros a b c. lia. Qed.

Global Instance time_le_total : Total time_le.
Proof. unfold time_le. intros a b. lia. Qed.

Lemma StronglySorted_lookup {A} (R : relation A) (l : list A) (i j : nat) (a b : A) :
  StronglySorted R l -> (i < j)%nat -> l !! i = Some a -> l !! j = Some b -> R a b.
Proof.
  intros Hs. revert i j. induction Hs as [|c l Hs IH Hall]; intros i j Hij Hi Hj.
  - discriminate Hi.
  - destruct j as [|j]; [lia|]. cbn in Hj. destruct i as [|i].
    + injection Hi as <-. rewrite Forall_forall in Hall.
      apply Hall. eapply list_elem_of_lookup_2. exact Hj.
    + cbn in Hi. apply (IH i j); [lia|exact Hi|exact Hj].
Qed.

Lemma column_lookup (f : node -> Z) (v : list node) (i : nat) (r : node) :
  v !! i = Some r -> (f <$> v) !!! i = f r.
Proof.
  intros Hi. apply list_lookup_total_correct.
  rewrite list_lookup_fmap, Hi. reflexivity.
Qed.

(** C1: no edge is made between two events one day and one cell apart.
    The connectors end in [return x_t - x_s] and [return y_t - y_s], so that
    no relation is called [dx] or [dy] as the selectors ask: on the events
    of the example [create_edges_ft] raises [ValueError], and so does
    [create_cpv] for every [b]. *)
Theorem create_edges_ft_raises :
  Examples.three_events !! 0%nat = Some (Examples.ev 100 0 0 1) /\
  Examples.three_events !! 1%nat = Some (Examples.ev 101 1 0 2) /\
  Z.abs (itime (Examples.ev 100 0 0 1) - itime (Examples.ev 101 1 0 2)) = 1 /\
  Z.abs (x (Examples.ev 100 0 0 1) - x (Examples.ev 101 1 0 2)) <= 1 /\
  Z.abs (y (Examples.ev 100 0 0 1) - y (Examples.ev 101 1 0 2)) <= 1 /\
  edges (sort_values_time Examples.three_events) = Raise ValueError /\
  (forall b, create_cpv Examples.three_events b = Raise ValueError).
Proof.
  split; [reflexivity|]. split; [reflexivity|]. split; [reflexivity|].
  split; [cbn; lia|]. split; [cbn; lia|].
  split; [apply edges_raise|]. intros b. apply create_cpv_raises.
Qed.
End Graph.

(** ** Component labels *)

Section Labeling.
Import DeepGraph Partition.

Lemma rtsc_mono {A} (R1 R2 : relation A) (a b : A) :
  (forall u v, R1 u v -> R2 u v) -> rtsc R1 a b -> rtsc R2 a b.
Proof.
  intros Hsub. apply rtc_subrel. intros u v [H|H]; [left|right]; auto.
Qed.

(** The closure of a relation with one more edge [(s, t)]. *)
Lemma rtsc_extend {A} (R : relation A) (s t i j : A) :
  rtsc (fun a b => R a b \/ (a = s /\ b = t)) i j <->
  rtsc R i j \/ (rtsc R i s /\ rtsc R t j) \/ (rtsc R i t /\ rtsc R s j).
Proof.
  split.
  - revert j. unfold rtsc at 1. apply rtc_ind_r; [|intros y z Hiy Hyz IH].
    + left. reflexivity.
    + assert (Hstep : rtsc R y z \/ (y = s /\ z = t) \/ (y = t /\ z = s)).
      { destruct Hyz as [[H|[H1 H2]]|[H|[H1 H2]]].
        - left. apply rtsc_lr. exact H.
        - right. left. split; assumption.
        - left. apply rtsc_rl. exact H.
        - right. right. split; assumption. }
      destruct Hstep as [Hyz'|[[-> ->]|[-> ->]]].
      * destruct IH as [IH|[[IH1 IH2]|[IH1 IH2]]].
        -- left. etrans; eauto.
        -- right. left. split; [exact IH1|]. etrans; eauto.
        -- right. right. split; [exact IH1|]. etrans; eauto.
      * destruct IH as [IH|[[IH1 IH2]|[IH1 IH2]]].
        -- right. left. split; [exact IH|reflexivity].
        -- right. left. split; [exact IH1|reflexivity].
        -- left. exact IH1.
      * destruct IH as [IH|[[IH1 IH2]|[IH1 IH2]]].
        -- right. right. split; [exact IH|reflexivity].
        -- left. exact IH1.
        -- right. right. split; [exact IH1|reflexivity].
  - assert (Hst : rtsc (fun a b => R a b \/ a = s /\ b = t) s t)
      by (apply rtsc_lr; right; split; reflexivity).
    assert (Hm : forall a b, rtsc R a b -> rtsc (fun a b => R a b \/ a = s /\ b = t) a b)
      by (intros a b; apply rtsc_mono; auto).
    intros [H|[[H1 H2]|[H1 H2]]].
    + apply Hm, H.
    + etrans; [apply Hm, H1|]. etrans; [exact Hst|]. apply Hm, H2.
    + etrans; [apply Hm, H1|]. etrans; [symmetry; exact Hst|]. apply Hm, H2.
Qed.

Lemma connected_iff (n : nat) (e1 e2 : list (nat * nat)) (i j : nat) :
  (forall u v, edge_rel n e1 u v <-> edge_rel n e2 u v) ->
  connected n e1 i j <-> connected n e2 i j.
Proof.
  intros H. split; apply rtsc_mono; intros u v; apply H.
Qed.

Lemma connected_nil (n i j : nat) : connected n [] i j <-> i = j.
Proof.
  split.
  - revert j. unfold connected, rtsc. apply rtc_ind_r; [reflexivity|].
    intros y z _ Hyz IH.
    destruct Hyz as [[H _]|[H _]]; apply elem_of_nil in H; contradiction.
  - intros ->. reflexivity.
Qed.

Lemma connected_snoc (n : nat) (e : list (nat * nat)) (s t i j : nat) :
  connected n (e ++ [(s, t)]) i j <->
  connected n e i j \/
  ((s < n)%nat /\ (t < n)%nat /\
   ((connected n e i s /\ connected n e t j) \/
    (connected n e i t /\ connected n e s j))).
Proof.
  destruct (decide ((s < n)%nat /\ (t < n)%nat)) as [[Hs Ht]|Hinv].
  - assert (Hrel : forall u v,
               edge_rel n (e ++ [(s, t)]) u v <->
               edge_rel n e u v \/ (u = s /\ v = t)).
    { intros u v. unfold edge_rel. rewrite elem_of_app, list_elem_of_singleton.
      split.
      - intros ([Hin|Heq] & Hu & Hv); [auto|]. injection Heq as -> ->. auto.
      - intros [(Hin & Hu & Hv)|[-> ->]]; auto. }
    unfold connected.
    transitivity (rtsc (fun a b => edge_rel n e a b \/ (a = s /\ b = t)) i j).
    { split; apply rtsc_mono; intros u v; apply Hrel. }
    rewrite rtsc_extend. tauto.
  - assert (Hrel : forall u v, edge_rel n (e ++ [(s, t)]) u v <-> edge_rel n e u v).
    { intros u v. unfold edge_rel. rewrite elem_of_app, list_elem_of_singleton.
      split.
      - intros ([Hin|Heq] & Hu & Hv); [auto|]. injection Heq as -> ->. tauto.
      - intros (Hin & Hu & Hv). auto. }
    rewrite (connected_iff _ _ _ _ _ Hrel). tauto.
Qed.

Global Instance connected_equivalence n e : Equivalence (connected n e).
Proof. unfold connected. apply _. Qed.

Lemma length_union (labels : list nat) (e : nat * nat) :
  length (union labels e) = length labels.
Proof.
  unfold union, relabel.
  destruct (labels !! e.1), (labels !! e.2); rewrite ?length_fmap; reflexivity.
Qed.

Lemma length_connected_components (n : nat) (e : list (nat * nat)) :
  length (connected_components n e) = n.
Proof.
  unfold connected_components.
  assert (H : forall l, length (foldl union l e) = length l).
  { induction e as [|p e IH]; intros l; [reflexivity|].
    cbn [foldl]. rewrite IH. apply length_union. }
  rewrite H. apply length_seq.
Qed.

Lemma union_represents (n : nat) (labels : list nat) (e : list (nat * nat))
    (s t : nat) :
  length labels = n ->
  represents labels (connected n e) ->
  represents (union labels (s, t)) (connected n (e ++ [(s, t)])).
Proof.
  intros Hlen Hrep. unfold union. cbn [fst snd].
  destruct (labels !! s) as [ls|] eqn:Es; [destruct (labels !! t) as [lt|] eqn:Et|].
  - pose proof (lookup_lt_Some _ _ _ Es) as Hs.
    pose proof (lookup_lt_Some _ _ _ Et) as Ht.
    intros i j a' b' Hi Hj. unfold relabel in Hi, Hj.
    rewrite list_lookup_fmap in Hi, Hj.
    apply fmap_Some in Hi as (a & Hi & ->). apply fmap_Some in Hj as (b & Hj & ->).
    rewrite connected_snoc.
    assert (Hjt : connected n e t j <-> b = lt)
      by (rewrite <- (Hrep _ _ _ _ Et Hj); split; intros; congruence).
    assert (Hjs : connected n e s j <-> b = ls)
      by (rewrite <- (Hrep _ _ _ _ Es Hj); split; intros; congruence).
    rewrite Hjt, Hjs.
    rewrite <- (Hrep _ _ _ _ Hi Hj), <- (Hrep _ _ _ _ Hi Es), <- (Hrep _ _ _ _ Hi Et).
    repeat case_decide; lia.
  - apply lookup_ge_None in Et.
    intros i j a b Hi Hj. rewrite connected_snoc, (Hrep _ _ _ _ Hi Hj).
    split; [tauto|]. intros [H|H]; [exact H|lia].
  - apply lookup_ge_None in Es.
    intros i j a b Hi Hj. rewrite connected_snoc, (Hrep _ _ _ _ Hi Hj).
    split; [tauto|]. intros [H|H]; [exact H|lia].
Qed.

Lemma foldl_union_represents (n : nat) (rest done : list (nat * nat))
    (labels : list nat) :
  length labels = n ->
  represents labels (connected n done) ->
  represents (foldl union labels rest) (connected n (done ++ rest)).
Proof.
  revert done labels. induction rest as [|[s t] rest IH]; intros done labels Hlen Hrep.
  - rewrite app_nil_r. exact Hrep.
  - cbn [foldl]. rewrite cons_middle, app_assoc. apply IH.
    + rewrite length_union. exact Hlen.
    + apply union_represents; assumption.
Qed.

(** The labels of [connected_components] are those of the connected
    components of the graph. *)
Lemma connected_components_represents (n : nat) (e : list (nat * nat)) :
  represents (connected_components n e) (connected n e).
Proof.
  unfold connected_components.
  apply (foldl_union_represents n e [] (seq 0 n)); [apply length_seq|].
  intros i j a b Hi Hj. apply lookup_seq in Hi as [-> _], Hj as [-> _].
  cbn. rewrite connected_nil. reflexivity.
Qed.

Lemma value_count_kernel (l1 l2 : list nat) (a a' : nat) :
  length l1 = length l2 ->
  (forall k b b', l1 !! k = Some b -> l2 !! k = Some b' -> (b = a <-> b' = a')) ->
  value_count l1 a = value_count l2 a'.
Proof.
  unfold value_count. revert l2.
  induction l1 as [|b l1 IH]; intros [|b' l2] Hlen Hk; try discriminate; [reflexivity|].
  rewrite !filter_cons.
  pose proof (Hk 0%nat b b' eq_refl eq_refl) as H0.
  assert (IH' : length (filter (fun l' => l' = a) l1)
                = length (filter (fun l' => l' = a') l2)).
  { apply IH; [cbn in Hlen; lia|]. intros k c c' Hc Hc'. apply (Hk (S k)); assumption. }
  repeat case_decide; cbn [length]; lia.
Qed.

Lemma append_cp_kernel (n : nat) (e1 e2 : list (nat * nat)) (i j : nat) :
  (forall u v, connected n e1 u v <-> connected n e2 u v) ->
  same_cp (append_cp n e1) i j -> same_cp (append_cp n e2) i j.
Proof.
  intros Hconn. unfold same_cp, append_cp.
  rewrite !length_fmap, !length_connected_components.
  intros (Hi & Hj & Heq). split; [exact Hi|]. split; [exact Hj|].
  pose proof (connected_components_represents n e1) as Hr1.
  pose proof (connected_components_represents n e2) as Hr2.
  pose proof (length_connected_components n e1) as Hl1.
  pose proof (length_connected_components n e2) as Hl2.
  set (l1 := connected_components n e1) in *.
  set (l2 := connected_components n e2) in *.
  destruct (lookup_lt_is_Some_2 l1 i ltac:(lia)) as [a Ha].
  destruct (lookup_lt_is_Some_2 l1 j ltac:(lia)) as [b Hb].
  destruct (lookup_lt_is_Some_2 l2 i ltac:(lia)) as [a' Ha'].
  destruct (lookup_lt_is_Some_2 l2 j ltac:(lia)) as [b' Hb'].
  rewrite !list_lookup_fmap, Ha, Hb in Heq.
  rewrite !list_lookup_fmap, Ha', Hb'. cbn in Heq |- *.
  injection Heq as Heq. f_equal.
  assert (Hab : a = b <-> a' = b').
  { rewrite (Hr1 _ _ _ _ Ha Hb), (Hr2 _ _ _ _ Ha' Hb'). apply Hconn. }
  assert (Hva : value_count l1 a = value_count l2 a').
  { apply value_count_kernel; [lia|]. intros k c c' Hc Hc'.
    rewrite (Hr1 _ _ _ _ Hc Ha), (Hr2 _ _ _ _ Hc' Ha'). apply Hconn. }
  assert (Hvb : value_count l1 b = value_count l2 b').
  { apply value_count_kernel; [lia|]. intros k c c' Hc Hc'.
    rewrite (Hr1 _ _ _ _ Hc Hb), (Hr2 _ _ _ _ Hc' Hb'). apply Hconn. }
  rewrite <- Hva, <- Hvb.
  repeat case_decide; try lia; try reflexivity.
Qed.

(** C8: two edge lists with the same edges, in whatever order and
    however often each edge occurs, give the same partition of the rows
    into components. *)
Theorem append_cp_edge_set (n : nat) (e1 e2 : list (nat * nat)) (i j : nat) :
  (forall p, p ∈ e1 <-> p ∈ e2) ->
  same_cp (append_cp n e1) i j <-> same_cp (append_cp n e2) i j.
Proof.
  intros Hset.
  assert (Hconn : forall u v, connected n e1 u v <-> connected n e2 u v).
  { intros u v. apply connected_iff. intros a b. unfold edge_rel.
    rewrite (Hset (a, b)). reflexivity. }
  split; apply append_cp_kernel; [exact Hconn|].
  intros u v. symmetry. apply Hconn.
Qed.

Lemma append_cp_edge_set_witness :
  same_cp (append_cp 4 [(0, 1); (1, 2)]%nat) 0 2 <->
  same_cp (append_cp 4 [(1, 2); (0, 1); (1, 2)]%nat) 0 2.
Proof.
  apply (append_cp_edge_set 4 [(0, 1); (1, 2)]%nat [(1, 2); (0, 1); (1, 2)]%nat 0 2).
  intros p. rewrite !elem_of_cons, !elem_of_nil. tauto.
Defined.
End Labeling.

(** ** Thresholds of small pools *)

Section ThresholdErrors.
Import HeatwaveDetection.

Lemma res_mapM_is_Ok {A B} (f : A -> res B) (l : list A) :
  (forall a, a ∈ l -> is_Ok (f a)) -> is_Ok (res_mapM f l).
Proof.
  induction l as [|a l IH]; intros H.
  - eexists. reflexivity.
  - destruct (H a) as [b Hb]; [left|].
    destruct IH as [bs Hbs]; [intros a' Ha'; apply H; right; exact Ha'|].
    exists (b :: bs). cbn. rewrite Hb. cbn. rewrite Hbs. reflexivity.
Qed.

Lemma res_mapM_length {A B} (f : A -> res B) (l : list A) (k : list B) :
  res_mapM f l = Ok k -> length k = length l.
Proof.
  revert k. induction l as [|a l IH]; intros k H.
  - injection H as <-. reflexivity.
  - cbn in H. destruct (f a) as [b|]; [|discriminate H]. cbn in H.
    destruct (res_mapM f l) as [bs|]; [|discriminate H]. cbn in H.
    injection H as <-. cbn. f_equal. apply IH. reflexivity.
Qed.

Lemma sort_nonempty (a : Q) (l : list Q) : Numpy.sort (a :: l) <> [].
Proof.
  unfold Numpy.sort. cbn [foldr].
  destruct (foldr Numpy.insert_sorted [] l) as [|b s]; cbn; [discriminate|].
  destruct (Qle_bool a b); discriminate.
Qed.

Lemma percentile_is_Some (l : list Q) (q : Z) :
  l <> [] -> is_Some (Numpy.percentile l q).
Proof.
  intros Hl. destruct l as [|a l]; [contradiction|].
  unfold Numpy.percentile. pose proof (sort_nonempty a l) as Hs.
  destruct (Numpy.sort (a :: l)); [contradiction|]. eexists. reflexivity.
Qed.

(** The groups of [partition_nodes]. *)
Lemma elem_of_partition_nodes {A K} `{EqDecision K} (features : A -> K)
    (v : list A) (k : K) (rows : list A) :
  (k, rows) ∈ DeepGraph.partition_nodes features v ->
  rows = filter (fun r => features r = k) v /\ exists r, r ∈ rows.
Proof.
  unfold DeepGraph.partition_nodes. intros H.
  apply list_elem_of_fmap in H as (k' & [= -> ->] & Hk).
  split; [reflexivity|].
  apply elem_of_remove_dups, list_elem_of_fmap in Hk as (r & -> & Hr).
  exists r. apply list_elem_of_filter. split; [reflexivity|exact Hr].
Qed.

Lemma cell_days_nonempty (data : list obs) (r : cell_day) :
  r ∈ cell_days data -> cd_t2m r <> [].
Proof.
  unfold cell_days. intros H.
  apply list_elem_of_fmap in H as ([k rows] & -> & Hg).
  apply elem_of_partition_nodes in Hg as [_ [r Hr]]. cbn.
  destruct rows; [apply elem_of_nil in Hr; contradiction|discriminate].
Qed.

Lemma percentile_nested_is_Ok (a : list (list Q)) (q : Z) :
  a <> [] ->
  (forall r r', r ∈ a -> r' ∈ a -> length r = length r') ->
  (forall r, r ∈ a -> r <> []) ->
  is_Ok (percentile_nested a q).
Proof.
  intros Ha Hlen Hne. destruct a as [|r a']; [contradiction|].
  unfold percentile_nested.
  assert (Hall : forallb (fun r' => Nat.eqb (length r') (length r)) a' = true).
  { apply forallb_forall. intros r' Hr'. apply Nat.eqb_eq.
    apply Hlen; [right; apply list_elem_of_In; exact Hr'|left]. }
  rewrite Hall.
  destruct (percentile_is_Some (mjoin (r :: a')) q) as [p Hp].
  { cbn. pose proof (Hne r ltac:(left)) as Hr. destruct r; [contradiction|discriminate]. }
  rewrite Hp. eexists. reflexivity.
Qed.

(** The windows hold days of the year from 1 to 365 only. *)
Lemma window_days (i : nat) (k : Z) :
  k ∈ slice time_window i (i + 31) -> 1 <= k <= 365.
Proof.
  unfold slice. intros Hk.
  apply subseteq_take, subseteq_drop in Hk. unfold time_window in Hk.
  rewrite !elem_of_app, !elem_of_arange in Hk. lia.
Qed.

Lemma window_thresholds_is_Ok (data : list obs) (i : nat) :
  regular data -> is_Ok (window_thresholds (cell_days data) i).
Proof.
  intros Hreg. unfold window_thresholds. apply res_mapM_is_Ok.
  intros [k rows] Hg. cbn [fst snd].
  apply elem_of_partition_nodes in Hg as [Hrows [r Hr]].
  assert (Hsub : forall r', r' ∈ rows ->
                   r' ∈ cell_days data /\ (cd_x r', cd_y r') = k
                   /\ 1 <= cd_ytime r' <= 365).
  { intros r' Hr'. rewrite Hrows in Hr'.
    apply list_elem_of_filter in Hr' as [Hk Hr'].
    apply elem_of_filter_by_values_v in Hr' as [Hr' Hw].
    apply window_days in Hw. auto. }
  destruct (percentile_nested_is_Ok (cd_t2m <$> rows) 99) as [th Hth].
  - destruct rows; [apply elem_of_nil in Hr; contradiction|discriminate].
  - intros l l' Hl Hl'.
    apply list_elem_of_fmap in Hl as (r1 & -> & Hr1).
    apply list_elem_of_fmap in Hl' as (r2 & -> & Hr2).
    destruct (Hsub r1 Hr1) as (Hc1 & Hk1 & Hd1).
    destruct (Hsub r2 Hr2) as (Hc2 & Hk2 & Hd2).
    apply Hreg; [assumption|assumption|congruence|congruence|assumption|assumption].
  - intros l Hl. apply list_elem_of_fmap in Hl as (r1 & -> & Hr1).
    apply (cell_days_nonempty data). apply Hsub, Hr1.
  - rewrite Hth. eexists. reflexivity.
Qed.

Lemma res_mapM_Forall2 {A B} (f : A -> res B) (l : list A) (k : list B) :
  res_mapM f l = Ok k <-> Forall2 (fun a b => f a = Ok b) l k.
Proof.
  revert k. induction l as [|a l IH]; intros k; cbn.
  - split; [intros [= <-]; constructor|]. intros H. inversion H. reflexivity.
  - destruct (f a) as [b|e] eqn:Ea; cbn.
    + destruct (res_mapM f l) as [bs|e] eqn:El; cbn.
      * split.
        -- intros [= <-]. constructor; [exact Ea|]. apply IH. reflexivity.
        -- intros H. inversion H as [|? b' ? bs' Hb Hbs]; subst.
           apply IH in Hbs. congruence.
      * split; [discriminate|]. intros H. inversion H as [|? b' ? bs' Hb Hbs]; subst.
        apply IH in Hbs. discriminate Hbs.
    + split; [discriminate|]. intros H. inversion H. congruence.
Qed.

Lemma elem_of_res_mapM {A B} (f : A -> res B) (l : list A) (k : list B) (b : B) :
  res_mapM f l = Ok k -> b ∈ k <-> exists a, a ∈ l /\ f a = Ok b.
Proof.
  intros H. apply res_mapM_Forall2 in H. induction H as [|a b' l k Hab H IH].
  - split; [intros Hb; apply elem_of_nil in Hb; contradiction|].
    intros (a & Ha & _). apply elem_of_nil in Ha. contradiction.
  - rewrite elem_of_cons, IH. split.
    + intros [->|(a' & Ha' & Hf)]; [exists a; split; [left|exact Hab]|].
      exists a'. split; [right; exact Ha'|exact Hf].
    + intros (a' & Ha' & Hf). apply elem_of_cons in Ha' as [->|Ha'].
      * left. congruence.
      * right. eauto.
Qed.

(** The rows of the threshold table, turn by turn of the loop. *)
Lemma elem_of_threshold_table (pool : list obs) (tmp2 : list thresh_row)
    (th : thresh_row) :
  threshold_table pool = Ok tmp2 ->
  th ∈ tmp2 <->
  exists i t, (i < 366)%nat /\ window_thresholds (cell_days pool) i = Ok t /\ th ∈ t.
Proof.
  unfold threshold_table. intros H.
  destruct (res_mapM _ (seq 0 366)) as [tables|e] eqn:Et; [|discriminate H].
  cbn in H. injection H as <-. rewrite list_elem_of_join. split.
  - intros (t & Hth & Ht). apply (elem_of_res_mapM _ _ _ _ Et) in Ht as (i & Hi & Hw).
    apply elem_of_seq in Hi. exists i, t. split; [lia|]. split; assumption.
  - intros (i & t & Hi & Hw & Hth). exists t. split; [exact Hth|].
    apply (elem_of_res_mapM _ _ _ _ Et). exists i. split; [apply elem_of_seq; lia|exact Hw].
Qed.

(** A row of one turn of the loop: the percentile of the pooled lists of
    the days of the window at one cell. *)
Lemma elem_of_window_thresholds (cpv_t : list cell_day) (i : nat)
    (t : list thresh_row) (th : thresh_row) :
  window_thresholds cpv_t i = Ok t ->
  th ∈ t <->
  exists rows,
    ((th_x th, th_y th), rows)
      ∈ DeepGraph.partition_nodes (fun r => (cd_x r, cd_y r))
          (DeepGraph.filter_by_values_v cd_ytime (slice time_window i (i + 31)) cpv_t)
    /\ percentile_nested (cd_t2m <$> rows) 99 = Ok (thresh th)
    /\ th_ytime th = Z.of_nat i + 1.
Proof.
  unfold window_thresholds. intros H. rewrite (elem_of_res_mapM _ _ _ _ H). split.
  - intros ([[kx ky] rows] & Hg & Hf). cbn [fst snd] in Hf.
    destruct (percentile_nested (cd_t2m <$> rows) 99) as [p|e] eqn:Ep; [|discriminate Hf].
    cbn in Hf. injection Hf as <-. cbn. exists rows. auto.
  - intros (rows & Hg & Hp & Hd). exists ((th_x th, th_y th), rows).
    split; [exact Hg|]. cbn [fst snd]. rewrite Hp. cbn. destruct th. cbn in *.
    subst. reflexivity.
Qed.

Lemma percentile_nested_Ok (a : list (list Q)) (q : Z) (p : Q) :
  percentile_nested a q = Ok p -> Numpy.percentile (mjoin a) q = Some p.
Proof.
  unfold percentile_nested. destruct a as [|r a']; [discriminate|].
  destruct (forallb _ a'); [|discriminate].
  destruct (Numpy.percentile (mjoin (r :: a')) q); [|discriminate].
  intros [= <-]. reflexivity.
Qed.

Lemma elem_of_cell_days (pool : list obs) (c : cell_day) (z : Q) :
  c ∈ cell_days pool -> z ∈ cd_t2m c ->
  exists r, r ∈ pool /\ t2m r = z /\ x r = cd_x c /\ y r = cd_y c
            /\ ytime r = cd_ytime c.
Proof.
  unfold cell_days. intros Hc Hz.
  apply list_elem_of_fmap in Hc as ([[[kx ky] kd] rows] & -> & Hg).
  apply elem_of_partition_nodes in Hg as [-> _]. cbn in *.
  apply list_elem_of_fmap in Hz as (r & -> & Hr).
  apply list_elem_of_filter in Hr as [Hk Hr]. injection Hk as <- <- <-.
  exists r. auto.
Qed.

Lemma filter_ext_in {A} (P Q : A -> Prop) `{!forall x, Decision (P x)}
    `{!forall x, Decision (Q x)} (l : list A) :
  (forall x, x ∈ l -> P x <-> Q x) -> filter P l = filter Q l.
Proof.
  induction l as [|a l IH]; intros Hext; [reflexivity|].
  rewrite !filter_cons.
  pose proof (Hext a ltac:(left)) as Ha.
  rewrite IH by (intros x Hx; apply Hext; right; exact Hx).
  destruct (decide (P a)), (decide (Q a)); tauto || reflexivity.
Qed.

Lemma filter_app_Permutation {A} (P Q R : A -> Prop) `{!forall x, Decision (P x)}
    `{!forall x, Decision (Q x)} `{!forall x, Decision (R x)} (l : list A) :
  (forall x, R x <-> P x \/ Q x) -> (forall x, P x -> Q x -> False) ->
  filter P l ++ filter Q l ≡ₚ filter R l.
Proof.
  intros HR Hdis. induction l as [|a l IH]; [reflexivity|].
  rewrite !filter_cons.
  pose proof (HR a) as Ha. pose proof (Hdis a) as Hd.
  destruct (decide (P a)), (decide (Q a)), (decide (R a)); try tauto.
  - cbn. constructor. exact IH.
  - rewrite <- Permutation_middle. constructor. exact IH.
Qed.

Lemma res_mapM_elem_of {A B} (f : A -> res B) (l : list A) (k : list B) (a : A) :
  res_mapM f l = Ok k -> a ∈ l -> exists b, f a = Ok b /\ b ∈ k.
Proof.
  intros Hk Ha. apply res_mapM_Forall2 in Hk.
  apply list_elem_of_lookup in Ha as [i Hi].
  destruct (Forall2_lookup_l _ _ _ _ _ Hk Hi) as (b & Hb & Hf).
  exists b. split; [exact Hf|]. eapply list_elem_of_lookup_2. exact Hb.
Qed.

(** The cell-day of a key of [partition_nodes]. *)
Local Abbreviation key := (fun r : obs => (x r, y r, ytime r)).

Local Abbreviation cell_day_of data :=
  (fun k : Z * Z * Z =>
     {| cd_x := k.1.1; cd_y := k.1.2; cd_ytime := k.2;
        cd_t2m := t2m <$> filter (fun r => key r = k) data |}).

Lemma cell_days_keys (data : list obs) :
  cell_days data = cell_day_of data <$> remove_dups (key <$> data).
Proof.
  unfold cell_days, DeepGraph.partition_nodes.
  rewrite <- list_fmap_compose. reflexivity.
Qed.

(** The lists of one cell on the days of a window, put end to end, hold
    the temperatures of the records of that cell on these days. *)
Lemma sample_of_keys (data : list obs) (W : list Z) (cx cy : Z)
    (ks : list (Z * Z * Z)) :
  NoDup ks ->
  mjoin (cd_t2m <$> filter (fun c => (cd_x c, cd_y c) = (cx, cy))
                      (DeepGraph.filter_by_values_v cd_ytime W (cell_day_of data <$> ks)))
  ≡ₚ t2m <$> filter (fun r => key r ∈ ks /\ x r = cx /\ y r = cy /\ ytime r ∈ W) data.
Proof.
  unfold DeepGraph.filter_by_values_v, Numpy.isin.
  induction ks as [|k ks IH]; intros Hnd.
  - cbn. rewrite (filter_ext_in _ (fun _ => False)).
    + induction data; [reflexivity|]. rewrite filter_cons. exact IHdata.
    + intros r _. rewrite elem_of_nil. tauto.
  - apply NoDup_cons in Hnd as [Hk Hnd]. specialize (IH Hnd).
    cbn [fmap list_fmap]. rewrite filter_cons. cbn [cd_ytime].
    destruct (decide (bool_decide (k.2 ∈ W) = true)) as [HW|HW].
    + apply bool_decide_eq_true in HW. rewrite filter_cons. cbn [cd_x cd_y].
      destruct (decide ((k.1.1, k.1.2) = (cx, cy))) as [Hc|Hc].
      * injection Hc as Hx Hy. cbn [fmap list_fmap mjoin list_join cd_t2m].
        rewrite IH, <- fmap_app. apply fmap_Permutation.
        apply filter_app_Permutation.
        -- intros r. rewrite elem_of_cons. split.
           ++ intros [[->|Hin] Hcond]; [left; reflexivity|right; tauto].
           ++ intros [<-|[Hin Hcond]]; [cbn in *; tauto|tauto].
        -- intros r <- [Hin _]. contradiction.
      * rewrite IH. apply fmap_Permutation. rewrite (filter_ext_in _
          (fun r => key r ∈ k :: ks /\ x r = cx /\ y r = cy /\ ytime r ∈ W));
          [reflexivity|].
        intros r _. rewrite elem_of_cons. split; [tauto|].
        intros [[<-|Hin] Hcond]; [|tauto]. cbn in Hc. exfalso. apply Hc.
        destruct Hcond as (-> & -> & _). reflexivity.
    + rewrite IH. apply fmap_Permutation. rewrite (filter_ext_in _
        (fun r => key r ∈ k :: ks /\ x r = cx /\ y r = cy /\ ytime r ∈ W));
        [reflexivity|].
      intros r _. rewrite elem_of_cons. split; [tauto|].
      intros [[<-|Hin] Hcond]; [|tauto]. exfalso. apply HW.
      apply bool_decide_eq_true. cbn. tauto.
Qed.

Lemma window_sample (data : list obs) (i : nat) (cx cy : Z) :
  mjoin (cd_t2m <$> filter (fun c => (cd_x c, cd_y c) = (cx, cy))
                      (DeepGraph.filter_by_values_v cd_ytime
                         (slice time_window i (i + 31)) (cell_days data)))
  ≡ₚ pooled data i cx cy.
Proof.
  rewrite cell_days_keys, sample_of_keys by apply NoDup_remove_dups.
  unfold pooled. apply fmap_Permutation.
  rewrite (filter_ext_in _
             (fun r => x r = cx /\ y r = cy /\ ytime r ∈ slice time_window i (i + 31)));
    [reflexivity|].
  intros r Hr. rewrite elem_of_remove_dups, list_elem_of_fmap. split; [tauto|].
  intros Hcond. split; [|exact Hcond]. exists r. split; [reflexivity|exact Hr].
Qed.

(** C6, amended: no minimum number of samples is enforced.  On a regular
    table the thresholds are computed, and every non-empty pool, whatever
    its size, gets the 99th percentile of its samples as the threshold of
    its cell and day; no error names a cell or a day. *)
Theorem calculate_thresholds_no_minimum (data : list obs) :
  regular data ->
  exists tmp2,
    threshold_table data = Ok tmp2 /\
    calculate_thresholds data = Ok (merge data tmp2) /\
    forall (i : nat) (cx cy : Z),
      (i < 366)%nat -> pooled data i cx cy <> [] ->
      exists sample th,
        sample ≡ₚ pooled data i cx cy /\
        Numpy.percentile sample 99 = Some th /\
        {| th_x := cx; th_y := cy; th_ytime := Z.of_nat i + 1; thresh := th |} ∈ tmp2.
Proof.
  intros Hreg.
  assert (Htab : is_Ok (threshold_table data)).
  { unfold threshold_table.
    destruct (res_mapM_is_Ok (window_thresholds (cell_days data)) (seq 0 366))
      as [tables Ht].
    { intros i _. apply window_thresholds_is_Ok, Hreg. }
    rewrite Ht. eexists. reflexivity. }
  destruct Htab as [tmp2 Htab]. exists tmp2. split; [exact Htab|]. split.
  { unfold calculate_thresholds. rewrite Htab. reflexivity. }
  intros i cx cy Hi Hpool.
  destruct (window_thresholds_is_Ok data i Hreg) as [t Ht].
  set (W := slice time_window i (i + 31)) in *.
  set (g_v := DeepGraph.filter_by_values_v cd_ytime W (cell_days data)).
  set (rows := filter (fun c => (cd_x c, cd_y c) = (cx, cy)) g_v).
  assert (Hg : ((cx, cy), rows)
               ∈ DeepGraph.partition_nodes (fun c => (cd_x c, cd_y c)) g_v).
  { unfold DeepGraph.partition_nodes. apply list_elem_of_fmap.
    exists (cx, cy). split; [reflexivity|].
    apply elem_of_remove_dups, list_elem_of_fmap.
    destruct (pooled data i cx cy) as [|z l] eqn:Ep; [contradiction|].
    assert (Hz : z ∈ pooled data i cx cy) by (rewrite Ep; left).
    unfold pooled in Hz. apply list_elem_of_fmap in Hz as (r & _ & Hr).
    apply list_elem_of_filter in Hr as [(Hx & Hy & Hw) Hr].
    exists (cell_day_of data (key r)). split; [cbn; congruence|].
    unfold g_v. apply elem_of_filter_by_values_v. split; [|exact Hw].
    rewrite cell_days_keys. apply list_elem_of_fmap. exists (key r).
    split; [reflexivity|]. apply elem_of_remove_dups, list_elem_of_fmap.
    exists r. split; [reflexivity|exact Hr]. }
  unfold window_thresholds in Ht. fold W g_v in Ht.
  destruct (res_mapM_elem_of _ _ _ _ Ht Hg) as (th & Hf & Hth).
  cbn [fst snd] in Hf.
  destruct (percentile_nested (cd_t2m <$> rows) 99) as [p|e] eqn:Ep; [|discriminate Hf].
  cbn in Hf. injection Hf as <-.
  exists (mjoin (cd_t2m <$> rows)), p. split; [apply window_sample|].
  split; [apply percentile_nested_Ok, Ep|].
  apply (elem_of_threshold_table _ _ _ Htab). exists i, t.
  split; [exact Hi|]. split; [|exact Hth].
  unfold window_thresholds. fold W g_v. exact Ht.
Qed.

Lemma one_sample_regular : regular Examples.one_sample.
Proof.
  intros r1 r2 H1 H2 _ _ _ _. vm_compute in H1, H2.
  apply list_elem_of_singleton in H1, H2. subst. reflexivity.
Defined.

Lemma calculate_thresholds_no_minimum_witness :
  regular Examples.one_sample /\
  exists tmp2,
    threshold_table Examples.one_sample = Ok tmp2 /\
    calculate_thresholds Examples.one_sample = Ok (merge Examples.one_sample tmp2) /\
    forall (i : nat) (cx cy : Z),
      (i < 366)%nat -> pooled Examples.one_sample i cx cy <> [] ->
      exists sample th,
        sample ≡ₚ pooled Examples.one_sample i cx cy /\
        Numpy.percentile sample 99 = Some th /\
        {| th_x := cx; th_y := cy; th_ytime := Z.of_nat i + 1; thresh := th |} ∈ tmp2.
Proof.
  split; [exact one_sample_regular|].
  exact (calculate_thresholds_no_minimum Examples.one_sample one_sample_regular).
Defined.

(** C6, as claimed, fails for every minimum above 1: the pool of day 365
    of the table of a single sample has one sample, no error is raised,
    and the record gets this sample as its threshold. *)
Lemma undersized_pool_gets_threshold :
  pooled Examples.one_sample 364 0 0 = [10%Q] /\
  calculate_thresholds Examples.one_sample
  = Ok [ {| r_obs := Examples.dec_30; r_thresh := 1000 # 100 |} ] /\
  ~ (exists minimum : nat,
       (1 < minimum)%nat /\
       forall (data : list obs) (i : nat) (cx cy : Z),
         (i < 366)%nat ->
         (0 < length (pooled data i cx cy) < minimum)%nat ->
         ~ is_Ok (calculate_thresholds data)).
Proof.
  split; [vm_compute; reflexivity|]. split; [vm_compute; reflexivity|].
  intros (minimum & Hmin & H).
  apply (H Examples.one_sample 364%nat 0 0).
  - lia.
  - assert (Hp : length (pooled Examples.one_sample 364 0 0) = 1%nat)
      by (vm_compute; reflexivity).
    rewrite Hp. lia.
  - eexists. vm_compute. reflexivity.
Qed.
End ThresholdErrors.

(** ** Sub-clusters of a family *)

Section Subclusters.
Import Scipy ClusteringStep2.

Lemma length_pairs_from (n k : nat) :
  (k <= n)%nat ->
  (2 * length (s ← seq (n - k) k; (fun t => (s, t)) <$> seq (S s) (n - S s))
   = k * (k - 1))%nat.
Proof.
  induction k as [|k IH]; intros Hk; [reflexivity|].
  cbn [seq]. rewrite bind_cons, length_app, length_fmap, length_seq.
  replace (S (n - S k))%nat with (n - k)%nat by lia.
  specialize (IH ltac:(lia)).
  replace (n - (n - k))%nat with k by lia.
  destruct k as [|k]; [cbn in *; lia|].
  replace (S (S k) - 1)%nat with (S k) by lia.
  replace (S k - 1)%nat with k in IH by lia. nia.
Qed.

Lemma length_pairs (n : nat) : (2 * length (DeepGraph.pairs n) = n * (n - 1))%nat.
Proof.
  unfold DeepGraph.pairs. pose proof (length_pairs_from n n ltac:(lia)) as H.
  rewrite Nat.sub_diag in H. exact H.
Qed.

Lemma num_obs_pairs (n : nat) :
  (2 <= n)%nat -> num_obs (length (DeepGraph.pairs n)) = Some n.
Proof.
  intros Hn. unfold num_obs. pose proof (length_pairs n) as Hlen.
  set (m := length (DeepGraph.pairs n)) in *.
  assert (Hm : (n <= S m)%nat) by nia.
  destruct (list_find_elem_of (fun n' => (n' * (n' - 1) = 2 * m)%nat) (seq 2 m) n)
    as [[i n'] Hfind].
  { apply elem_of_seq. lia. }
  { lia. }
  rewrite Hfind. cbn. f_equal.
  apply list_find_Some in Hfind as (Hi & HP & _).
  apply lookup_seq in Hi as [-> Hi]. nia.
Qed.

Lemma closest_is_Some (d : nat -> nat -> Q) (active : list cluster) :
  (2 <= length active)%nat ->
  exists p, closest d active = Some p /\ (p.1 < p.2 < length active)%nat.
Proof.
  intros Hlen. unfold closest.
  set (step := fun (best : option (nat * nat)) (p : nat * nat) => _).
  assert (Hfold : forall (l : list (nat * nat)) (acc : option (nat * nat)),
             (exists q, acc = Some q) \/ l <> [] ->
             exists p, foldl step acc l = Some p
                       /\ (acc = Some p \/ p ∈ l)).
  { induction l as [|q l IH]; intros acc Hacc.
    - destruct Hacc as [[q ->]|Hne]; [|contradiction]. exists q. split; [reflexivity|left; reflexivity].
    - cbn [foldl].
      destruct (IH (step acc q)) as (p & Hp & Hin).
      { left. unfold step. destruct acc as [q'|]; [|eauto].
        destruct (Qlt_le_dec _ _); eauto. }
      exists p. split; [exact Hp|].
      destruct Hin as [Hin|Hin]; [|right; right; exact Hin].
      unfold step in Hin. destruct acc as [q'|].
      + destruct (Qlt_le_dec _ _); injection Hin as <-; [right; left|left; reflexivity].
      + injection Hin as <-. right. left. }
  destruct (Hfold (DeepGraph.pairs (length active)) None) as (p & Hp & Hin).
  { right. intros Hnil.
    assert (H01 : (0%nat, 1%nat) ∈ DeepGraph.pairs (length active))
      by (apply elem_of_pairs; lia).
    rewrite Hnil in H01. apply elem_of_nil in H01. exact H01. }
  exists p. split; [exact Hp|].
  destruct Hin as [Hin|Hin]; [discriminate Hin|].
  destruct p as [i j]. apply elem_of_pairs in Hin. exact Hin.
Qed.

Lemma agglomerate_is_Ok (steps : nat) :
  forall (next : nat) (d : nat -> nat -> Q) (active : list cluster),
    (steps < length active)%nat ->
    exists rows, agglomerate steps next d active = Ok rows /\ length rows = steps.
Proof.
  induction steps as [|steps IH]; intros next d active Hlen.
  - exists []. split; reflexivity.
  - destruct (closest_is_Some d active ltac:(lia)) as (p & Hp & Hlt).
    cbn [agglomerate]. rewrite Hp. cbn.
    set (active' := delete p.1 (delete p.2 active) ++ _).
    set (d' := merged_dist _ _ _ _).
    destruct (IH (S next) d' active') as (rows & Hrows & Hl).
    { unfold active'. rewrite length_app, length_delete, length_delete; cbn.
      - lia.
      - apply lookup_lt_is_Some. lia.
      - apply lookup_lt_is_Some. rewrite length_delete by (apply lookup_lt_is_Some; lia).
        lia. }
    rewrite Hrows. cbn. eexists. split; [reflexivity|]. cbn. lia.
Qed.

Lemma length_cut (lm : list lrow) (k : nat) : length (cut lm k) = S (length lm).
Proof.
  unfold cut. rewrite length_fmap. apply length_connected_components.
Qed.

Lemma length_fcluster (lm : list lrow) (t : Z) :
  length (fcluster lm t) = S (length lm).
Proof.
  unfold fcluster. destruct (list_find _ _) as [[? k]|]; apply length_cut.
Qed.

Lemma relabel_by_size_is_Ok (labels : list nat) :
  exists labels', relabel_by_size labels = Ok labels'
                  /\ length labels' = length labels.
Proof.
  unfold relabel_by_size.
  destruct (res_mapM_is_Ok (fdic (value_counts_index labels)) labels) as [k Hk].
  - intros x Hx. unfold fdic.
    destruct (list_find_elem_of (fun j => j = x) (value_counts_index labels) x)
      as [[i y] Hf].
    + unfold value_counts_index. rewrite merge_sort_Permutation.
      apply elem_of_remove_dups. exact Hx.
    + reflexivity.
    + rewrite Hf. eexists. reflexivity.
  - exists k. split; [exact Hk|]. apply res_mapM_length in Hk. exact Hk.
Qed.

Lemma finite_is_Ok (dv : list outcome) :
  (forall o, o ∈ dv -> exists q, o = Value q) ->
  exists qs, finite dv = Ok qs /\ length qs = length dv.
Proof.
  intros H. unfold finite.
  destruct (res_mapM_is_Ok
              (fun o => match o with
                        | Value q => Ok q
                        | DivisionByZero => Raise ValueError
                        end) dv) as [qs Hqs].
  - intros o Ho. destruct (H o Ho) as [q ->]. eexists. reflexivity.
  - exists qs. split; [exact Hqs|]. apply res_mapM_length in Hqs. exact Hqs.
Qed.

Lemma intersection_strength_finite (s t : gset Z) :
  s <> ∅ -> t <> ∅ ->
  exists q, ConSep.cp_intersection_strength (size s) (size t)
              (ConSep.cp_node_intersection s t) = Value q.
Proof.
  intros Hs Ht. unfold ConSep.cp_intersection_strength.
  assert (Hs' : size s <> 0%nat).
  { intros E. apply size_empty_inv in E. apply Hs. apply leibniz_equiv. exact E. }
  assert (Ht' : size t <> 0%nat).
  { intros E. apply size_empty_inv in E. apply Ht. apply leibniz_equiv. exact E. }
  eexists. apply fdiv_nonzero.
  unfold Qeq. cbn. lia.
Qed.

(** The clustering calls themselves compare the number of clusters asked
    for with nothing: from the distances of at least two heat waves, each
    over some grid cell, every heat wave gets a label. *)
Lemma flat_clusters_returns_labels (g_ids : list (gset Z)) (u : Z) :
  (2 <= length g_ids)%nat ->
  (forall s, s ∈ g_ids -> s <> ∅) ->
  exists labels,
    flat_clusters (one_minus <$> strengths g_ids (DeepGraph.pairs (length g_ids))) u
    = Ok labels
    /\ length labels = length g_ids.
Proof.
  intros Hlen Hne. unfold flat_clusters, strengths, linkage.
  set (n := length g_ids) in *.
  destruct (finite_is_Ok
              (one_minus <$>
                 ((fun p : nat * nat =>
                     ConSep.cp_intersection_strength (size (g_ids !!! p.1))
                       (size (g_ids !!! p.2))
                       (ConSep.cp_node_intersection (g_ids !!! p.1) (g_ids !!! p.2)))
                    <$> DeepGraph.pairs n))) as (qs & Hqs & Hlq).
  { intros o Ho. apply list_elem_of_fmap in Ho as (o' & -> & Ho').
    apply list_elem_of_fmap in Ho' as ([i j] & -> & Hp).
    apply elem_of_pairs in Hp. cbn [fst snd].
    destruct (intersection_strength_finite (g_ids !!! i) (g_ids !!! j)) as [q Hq].
    - apply Hne, list_elem_of_lookup_total_2. unfold n in Hp. lia.
    - apply Hne, list_elem_of_lookup_total_2. unfold n in Hp. lia.
    - rewrite Hq. eexists. reflexivity. }
  rewrite Hqs. cbn. rewrite Hlq, !length_fmap, (num_obs_pairs n Hlen). cbn.
  destruct (agglomerate_is_Ok (n - 1) n (condensed n qs)
              ((fun i => {| c_id := i; c_size := 1 |}) <$> seq 0 n))
    as (lm & Hlm & Hll).
  { rewrite length_fmap, length_seq. lia. }
  rewrite Hlm. cbn.
  destruct (relabel_by_size_is_Ok (fcluster lm u)) as (labels & Hlab & Hl).
  exists labels. split; [exact Hlab|].
  rewrite Hl, length_fcluster, Hll. lia.
Qed.



End Subclusters.

(** * Further properties *)

(** ** Intersection strength *)

Section IntersectionStrength.
Import ConSep.

Lemma size_nonempty (s : gset Z) : s <> ∅ -> (0 < size s)%nat.
Proof.
  intros Hs. destruct (size s) eqn:E; [|lia].
  apply size_empty_inv in E. exfalso. apply Hs. apply leibniz_equiv. exact E.
Qed.

Lemma intersection_card_le (s t : gset Z) :
  (cp_node_intersection s t <= Nat.min (size s) (size t))%nat.
Proof.
  unfold cp_node_intersection. apply Nat.min_glb; apply subseteq_size; set_solver.
Qed.

(** X1: The intersection strength of two non-empty footprints is a number
    between 0 and 1. *)
Theorem intersection_strength_range (s t : gset Z) :
  s <> ∅ -> t <> ∅ ->
  exists q, cp_intersection_strength (size s) (size t) (cp_node_intersection s t)
            = Value q /\ (0 <= q <= 1)%Q.
Proof.
  intros Hs Ht. pose proof (size_nonempty s Hs). pose proof (size_nonempty t Ht).
  pose proof (intersection_card_le s t) as Hle.
  unfold cp_intersection_strength.
  set (c := cp_node_intersection s t) in *. set (m := Nat.min (size s) (size t)) in *.
  assert (Hm : (0 < m)%nat) by (unfold m; lia).
  eexists. split.
  - apply fdiv_nonzero. unfold Qeq. cbn. lia.
  - assert (Hm' : (0 < inject_Z (Z.of_nat m))%Q) by (unfold Qlt; cbn; lia).
    split.
    + apply Qle_shift_div_l; [exact Hm'|]. unfold Qle. cbn. lia.
    + apply Qle_shift_div_r; [exact Hm'|]. unfold Qle. cbn. lia.
Qed.

Lemma intersection_strength_range_witness :
  exists q, cp_intersection_strength (size ({[1; 2; 3]} : gset Z)) (size ({[2; 3]} : gset Z))
              (cp_node_intersection {[1; 2; 3]} {[2; 3]})
            = Value q /\ (0 <= q <= 1)%Q.
Proof.
  apply (intersection_strength_range {[1; 2; 3]} {[2; 3]});
    apply (bool_decide_unpack _); vm_compute; exact I.
Defined.

(** X2: The intersection strength does not depend on which heat wave is the
    source and which the target. *)
Theorem intersection_strength_sym (s t : gset Z) :
  cp_intersection_strength (size s) (size t) (cp_node_intersection s t)
  = cp_intersection_strength (size t) (size s) (cp_node_intersection t s).
Proof.
  unfold cp_intersection_strength, cp_node_intersection.
  rewrite (comm_L (∩) s t), (Nat.min_comm (size s) (size t)). reflexivity.
Qed.

(** X3: Two non-empty footprints have intersection strength 1 (distance 0)
    exactly when one of them lies within the other. *)
Theorem intersection_strength_one (s t : gset Z) :
  s <> ∅ -> t <> ∅ ->
  (exists q, cp_intersection_strength (size s) (size t) (cp_node_intersection s t)
             = Value q /\ (q == 1)%Q)
  <-> (s ⊆ t \/ t ⊆ s).
Proof.
  intros Hs Ht. pose proof (size_nonempty s Hs). pose proof (size_nonempty t Ht).
  pose proof (intersection_card_le s t) as Hle.
  unfold cp_intersection_strength.
  set (m := Nat.min (size s) (size t)) in *.
  assert (Hm : (0 < m)%nat) by (unfold m; lia).
  rewrite fdiv_nonzero by (unfold Qeq; cbn; lia).
  assert (Hcard : cp_node_intersection s t = m <-> (s ⊆ t \/ t ⊆ s)).
  { unfold cp_node_intersection, m. split.
    - intros E. destruct (Nat.min_spec (size s) (size t)) as [[_ Em]|[_ Em]];
        rewrite Em in E.
      + left. assert (s ∩ t ≡ s) by (apply set_subseteq_size_equiv; [set_solver|lia]).
        set_solver.
      + right. assert (s ∩ t ≡ t) by (apply set_subseteq_size_equiv; [set_solver|lia]).
        set_solver.
    - intros [Hsub|Hsub].
      + assert (E : s ∩ t = s) by set_solver. rewrite E.
        pose proof (subseteq_size s t Hsub). lia.
      + assert (E : s ∩ t = t) by set_solver. rewrite E.
        pose proof (subseteq_size t s Hsub). lia. }
  rewrite <- Hcard. split.
  - intros (q & [= <-] & Hq).
    assert (Hc : (inject_Z (Z.of_nat (cp_node_intersection s t))
                  == inject_Z (Z.of_nat m))%Q).
    { rewrite <- (Qmult_div_r (inject_Z (Z.of_nat (cp_node_intersection s t)))
                    (inject_Z (Z.of_nat m))) by (unfold Qeq; cbn; lia).
      rewrite Hq. ring. }
    apply Nat2Z.inj. apply inject_Z_injective. exact Hc.
  - intros E. eexists. split; [reflexivity|]. rewrite E.
    unfold Qdiv. apply Qmult_inv_r. unfold Qeq. cbn. lia.
Qed.

Lemma intersection_strength_one_witness :
  (exists q, cp_intersection_strength (size ({[1; 2; 3]} : gset Z)) (size ({[2; 3]} : gset Z))
               (cp_node_intersection {[1; 2; 3]} {[2; 3]})
             = Value q /\ (q == 1)%Q)
  <-> (({[1; 2; 3]} : gset Z) ⊆ {[2; 3]} \/ ({[2; 3]} : gset Z) ⊆ {[1; 2; 3]}).
Proof.
  apply (intersection_strength_one {[1; 2; 3]} {[2; 3]});
    apply (bool_decide_unpack _); vm_compute; exact I.
Defined.
End IntersectionStrength.

(** ** Selectors *)

Section Selectors.
Import ConSep.

Lemma mask_index_zip {A B} (a : list A) (b : list B) (mask : list bool) :
  length a = length mask -> length b = length mask ->
  zip (mask_index a mask) (mask_index b mask) = mask_index (zip a b) mask.
Proof.
  unfold mask_index. revert a b.
  induction mask as [|m mask IH]; intros [|x a] [|y b] Ha Hb; try discriminate; [reflexivity|].
  cbn [zip zip_with]. rewrite !filter_cons. cbn [snd].
  injection Ha as Ha. injection Hb as Hb. specialize (IH a b Ha Hb). cbn [zip] in IH.
  destruct m.
  - rewrite !decide_True by reflexivity. cbn. f_equal. exact IH.
  - rewrite !decide_False by discriminate. exact IH.
Qed.

Lemma mask_index_filter {A} (a : list A) (d : list Z) (f : Z -> bool) :
  length a = length d ->
  mask_index a (f <$> d) = (filter (fun p => f p.2 = true) (zip a d)).*1.
Proof.
  unfold mask_index. revert a.
  induction d as [|z d IH]; intros [|x a] Ha; try discriminate; [reflexivity|].
  injection Ha as Ha. specialize (IH a Ha).
  cbn [fmap list_fmap zip zip_with]. rewrite !filter_cons. cbn [snd].
  destruct (f z).
  - rewrite !decide_True by reflexivity. cbn. f_equal. exact IH.
  - rewrite !decide_False by discriminate. exact IH.
Qed.

(** X4: On arrays of one length, the selectors return as many sources as
    targets, and the pairs they return are the pairs whose distance is at
    most 1 in absolute value, in their order. *)
Theorem s_grid_2d_keeps_near_pairs (d : list Z) (sources targets : list nat) :
  length sources = length d -> length targets = length d ->
  s_grid_2d_dy d sources targets = s_grid_2d_dx d sources targets /\
  length (s_grid_2d_dx d sources targets).1 = length (s_grid_2d_dx d sources targets).2 /\
  zip (s_grid_2d_dx d sources targets).1 (s_grid_2d_dx d sources targets).2
  = (filter (fun p : nat * nat * Z => Z.abs p.2 <= 1) (zip (zip sources targets) d)).*1.
Proof.
  intros Hs Ht. split; [reflexivity|].
  unfold s_grid_2d_dx. cbn [fst snd].
  rewrite <- !list_fmap_compose.
  set (f := (fun d0 : Z => bool_decide (d0 <= 1)) ∘ Z.abs).
  assert (Hzip : zip (mask_index sources (f <$> d)) (mask_index targets (f <$> d))
                 = (filter (fun p : nat * nat * Z => Z.abs p.2 <= 1)
                      (zip (zip sources targets) d)).*1).
  { rewrite mask_index_zip by (rewrite length_fmap; assumption).
    rewrite mask_index_filter by (rewrite length_zip; lia).
    f_equal. apply list_filter_iff. intros p. unfold f. cbn.
    rewrite bool_decide_eq_true. reflexivity. }
  split; [|exact Hzip].
  rewrite !mask_index_filter by assumption. rewrite !length_fmap.
  clear Hzip. revert sources targets Hs Ht.
  induction d as [|z d IH]; intros [|s sources] [|t targets] Hs Ht; try discriminate; [reflexivity|].
  cbn [zip zip_with]. rewrite !filter_cons. cbn [snd].
  injection Hs as Hs. injection Ht as Ht. specialize (IH sources targets Hs Ht).
  destruct (f z); [rewrite !decide_True by reflexivity|rewrite !decide_False by discriminate];
    cbn; auto.
Qed.

Lemma s_grid_2d_keeps_near_pairs_witness :
  zip (s_grid_2d_dx [0; 2; -1] [0; 0; 1]%nat [1; 2; 2]%nat).1
      (s_grid_2d_dx [0; 2; -1] [0; 0; 1]%nat [1; 2; 2]%nat).2
  = (filter (fun p : nat * nat * Z => Z.abs p.2 <= 1)
       (zip (zip [0; 0; 1]%nat [1; 2; 2]%nat) [0; 2; -1])).*1.
Proof.
  apply (s_grid_2d_keeps_near_pairs [0; 2; -1] [0; 0; 1]%nat [1; 2; 2]%nat); reflexivity.
Defined.
End Selectors.

(** ** Aggregates of a component *)

Section Aggregates.
Import Cppv.

Lemma foldl_min_le (l : list Z) (a : Z) :
  foldl Z.min a l <= a /\ forall z, z ∈ l -> foldl Z.min a l <= z.
Proof.
  revert a. induction l as [|b l IH]; intros a; cbn [foldl].
  - split; [lia|]. intros z Hz. apply elem_of_nil in Hz. contradiction.
  - destruct (IH (Z.min a b)) as [H1 H2]. split; [lia|].
    intros z Hz. apply elem_of_cons in Hz as [->|Hz]; [lia|auto].
Qed.

Lemma foldl_max_ge (l : list Z) (a : Z) :
  a <= foldl Z.max a l /\ forall z, z ∈ l -> z <= foldl Z.max a l.
Proof.
  revert a. induction l as [|b l IH]; intros a; cbn [foldl].
  - split; [lia|]. intros z Hz. apply elem_of_nil in Hz. contradiction.
  - destruct (IH (Z.max a b)) as [H1 H2]. split; [lia|].
    intros z Hz. apply elem_of_cons in Hz as [->|Hz]; [lia|auto].
Qed.

Lemma amin_le (l : list Z) (z : Z) : z ∈ l -> amin l <= z.
Proof.
  destruct l as [|a l]; intros Hz; [apply elem_of_nil in Hz; contradiction|].
  unfold amin. destruct (foldl_min_le l a) as [H1 H2].
  apply elem_of_cons in Hz as [->|Hz]; auto.
Qed.

Lemma amax_ge (l : list Z) (z : Z) : z ∈ l -> z <= amax l.
Proof.
  destruct l as [|a l]; intros Hz; [apply elem_of_nil in Hz; contradiction|].
  unfold amax. destruct (foldl_max_ge l a) as [H1 H2].
  apply elem_of_cons in Hz as [->|Hz]; auto.
Qed.

Lemma size_list_to_set_le (l : list Z) :
  (size (list_to_set l : gset Z) <= length l)%nat.
Proof.
  induction l as [|a l IH]; [rewrite list_to_set_nil, size_empty; cbn; lia|].
  rewrite list_to_set_cons, size_union_alt, size_singleton. cbn.
  assert (size (list_to_set l ∖ {[a]} : gset Z) <= size (list_to_set l : gset Z))%nat
    by (apply subseteq_size; set_solver).
  lia.
Qed.

(** X5: The aggregates of a component bound its members: every member lies
    between [time_amin] and [time_amax] and on a cell of [g_ids]; the time
    span is at least one day and there are at most as many cells as
    members. *)
Theorem features_bound_members (c : nat) (members : list node) (n : node) :
  n ∈ members ->
  time_amin (features c members) <= time n <= time_amax (features c members) /\
  1 <= timespan (features c members) /\
  g_id n ∈ g_ids (features c members) /\
  (1 <= n_unique_g_ids (features c members) <= length members)%nat.
Proof.
  intros Hn. cbn.
  assert (Ht : time n ∈ time <$> members) by (apply list_elem_of_fmap; eauto).
  assert (Hg : g_id n ∈ g_id <$> members) by (apply list_elem_of_fmap; eauto).
  pose proof (amin_le _ _ Ht). pose proof (amax_ge _ _ Ht).
  assert (Hin : g_id n ∈ (list_to_set (g_id <$> members) : gset Z))
    by (apply elem_of_list_to_set; exact Hg).
  split; [lia|]. split; [lia|]. split; [exact Hin|]. split.
  - assert (size (list_to_set (g_id <$> members) : gset Z) <> 0%nat); [|lia].
    intros E. apply size_empty_inv in E. set_solver.
  - pose proof (size_list_to_set_le (g_id <$> members)) as Hle.
    rewrite length_fmap in Hle. exact Hle.
Qed.

Lemma features_bound_members_witness :
  time_amin (features 1 Examples.two_day_event) <= time (Examples.ev 101 1 0 2)
    <= time_amax (features 1 Examples.two_day_event) /\
  1 <= timespan (features 1 Examples.two_day_event) /\
  g_id (Examples.ev 101 1 0 2) ∈ g_ids (features 1 Examples.two_day_event) /\
  (1 <= n_unique_g_ids (features 1 Examples.two_day_event)
   <= length Examples.two_day_event)%nat.
Proof.
  apply (features_bound_members 1 Examples.two_day_event (Examples.ev 101 1 0 2)).
  apply list_elem_of_lookup. exists 3%nat. reflexivity.
Defined.

(** X6: Raising the number [b] of grid cells a heat wave must exceed never
    adds a heat wave or an event to the tables made from an edge table. *)
Theorem create_cpv_antitone (e : list (nat * nat)) (extr_data : list node)
    (b b' : Z) :
  b <= b' ->
  (forall r, r ∈ (create_cpv_from_edges e extr_data b').2 ->
             r ∈ (create_cpv_from_edges e extr_data b).2) /\
  (forall n, n ∈ (create_cpv_from_edges e extr_data b').1 ->
             n ∈ (create_cpv_from_edges e extr_data b).1).
Proof.
  intros Hb.
  assert (H2 : forall r, r ∈ (create_cpv_from_edges e extr_data b').2 ->
                         r ∈ (create_cpv_from_edges e extr_data b).2).
  { intros r. unfold create_cpv_from_edges. cbn [snd].
    rewrite !list_elem_of_filter, !keep_iff.
    intros [[Hdt Hn] Hr]. split; [split; [exact Hdt|lia]|exact Hr]. }
  split; [exact H2|].
  intros n. unfold create_cpv_from_edges in *. cbn [fst snd] in *.
  rewrite !elem_of_filter_by_values_v. intros [Hn Hc]. split; [exact Hn|].
  apply list_elem_of_fmap in Hc as (r & -> & Hr).
  apply list_elem_of_fmap. exists r. split; [reflexivity|]. apply H2, Hr.
Qed.

Lemma create_cpv_antitone_witness :
  features 1 Examples.three_day_event
    ∈ (create_cpv_from_edges Examples.three_day_edges Examples.three_day_event 0).2 /\
  (Examples.ev 101 1 0 2, 1%nat)
    ∈ (create_cpv_from_edges Examples.three_day_edges Examples.three_day_event 0).1.
Proof.
  assert (Hb : 0 <= 1) by lia.
  destruct (create_cpv_antitone Examples.three_day_edges Examples.three_day_event
              0 1 Hb) as [H2 H1].
  split.
  - apply H2. apply list_elem_of_lookup. exists 0%nat. vm_compute. reflexivity.
  - apply H1. apply list_elem_of_lookup. exists 1%nat. vm_compute. reflexivity.
Defined.

(** X7: The two tables made from an edge table agree: an event is returned
    iff its component is a returned heat wave, and every returned heat wave
    has an event in the returned node table. *)
Theorem create_cpv_tables_agree (e : list (nat * nat)) (extr_data : list node)
    (b : Z) :
  (forall n c, (n, c) ∈ (create_cpv_from_edges e extr_data b).1 <->
               (n, c) ∈ nodes_cp e extr_data
               /\ exists r, r ∈ (create_cpv_from_edges e extr_data b).2 /\ cp r = c) /\
  (forall r, r ∈ (create_cpv_from_edges e extr_data b).2 ->
             exists n, (n, cp r) ∈ (create_cpv_from_edges e extr_data b).1).
Proof.
  split.
  - intros n c. unfold create_cpv_from_edges. cbn [fst snd].
    rewrite elem_of_filter_by_values_v. cbn [snd].
    rewrite list_elem_of_fmap. split.
    + intros [Hn (r & -> & Hr)]. eauto.
    + intros [Hn (r & Hr & <-)]. eauto.
  - intros r Hr. pose proof Hr as Hr'.
    unfold create_cpv_from_edges in Hr. cbn [snd] in Hr.
    apply list_elem_of_filter in Hr as [_ Hr]. unfold supernodes in Hr.
    apply list_elem_of_fmap in Hr as ([c rows] & -> & Hg).
    apply elem_of_partition_nodes in Hg as [Hrows [[n c'] Hn]].
    rewrite Hrows in Hn. apply list_elem_of_filter in Hn as [Hc Hn].
    cbn in Hc. subst c'. exists n. unfold create_cpv_from_edges. cbn [fst snd].
    apply elem_of_filter_by_values_v. split; [exact Hn|]. cbn [snd].
    apply list_elem_of_fmap. exists (features c (rows.*1)). split; [reflexivity|].
    exact Hr'.
Qed.
End Aggregates.

(** ** Components and single nodes *)

Section SingleNodes.
Import DeepGraph Partition Singles.

Lemma value_count_zero (l : list nat) (a : nat) :
  value_count l a = 0%nat <-> a ∉ l.
Proof.
  unfold value_count. induction l as [|b l IH].
  - split; [intros _; apply not_elem_of_nil|reflexivity].
  - rewrite filter_cons, not_elem_of_cons. case_decide; cbn [length]; [|rewrite IH].
    + split; [discriminate|]. intros [H' _]. congruence.
    + split; [intros H'; split; [congruence|exact H']|tauto].
Qed.

Lemma value_count_one (l : list nat) (a : nat) :
  value_count l a = 1%nat <->
  exists i, l !! i = Some a /\ forall k, l !! k = Some a -> k = i.
Proof.
  induction l as [|b l IH].
  - split; [discriminate|]. intros (i & Hi & _). discriminate Hi.
  - assert (Hc : value_count (b :: l) a
                 = ((if decide (b = a) then 1 else 0) + value_count l a)%nat).
    { unfold value_count. rewrite filter_cons. case_decide; reflexivity. }
    rewrite Hc. destruct (decide (b = a)) as [->|Hne].
    + split.
      * intros H1. assert (H0 : value_count l a = 0%nat) by lia.
        apply value_count_zero in H0. exists 0%nat. split; [reflexivity|].
        intros [|k] Hk; [reflexivity|]. cbn in Hk. exfalso. apply H0.
        eapply list_elem_of_lookup_2. exact Hk.
      * intros (i & Hi & Huniq).
        assert (i = 0%nat) by (symmetry; apply Huniq; reflexivity). subst i.
        assert (H0 : value_count l a = 0%nat); [|lia].
        apply value_count_zero. intros Hin. apply list_elem_of_lookup in Hin as [k Hk].
        specialize (Huniq (S k) Hk). discriminate Huniq.
    + cbn [Nat.add]. rewrite IH. split.
      * intros (i & Hi & Huniq). exists (S i). split; [exact Hi|].
        intros [|k] Hk; [cbn in Hk; congruence|]. f_equal. apply Huniq. exact Hk.
      * intros (i & Hi & Huniq). destruct i as [|i]; [cbn in Hi; congruence|].
        exists i. split; [exact Hi|]. intros k Hk.
        specialize (Huniq (S k) Hk). lia.
Qed.

(** A label of [connected_components] occurs once iff its row is single. *)
Lemma value_count_single (n : nat) (e : list (nat * nat)) (i a : nat) :
  connected_components n e !! i = Some a ->
  value_count (connected_components n e) a = 1%nat <-> single n e i.
Proof.
  intros Ha. pose proof (connected_components_represents n e) as Hrep.
  pose proof (length_connected_components n e) as Hlen.
  rewrite value_count_one. split.
  - intros (i' & Hi' & Huniq) k Hk Hconn.
    assert (i = i') by (apply Huniq; exact Ha). subst i'.
    destruct (lookup_lt_is_Some_2 (connected_components n e) k ltac:(lia)) as [b Hb].
    apply Huniq. rewrite Hb. f_equal. symmetry. apply (Hrep _ _ _ _ Ha Hb). exact Hconn.
  - intros Hs. exists i. split; [exact Ha|]. intros k Hk.
    apply Hs; [apply lookup_lt_Some in Hk; lia|].
    apply (Hrep _ _ _ _ Ha Hk). reflexivity.
Qed.

Lemma append_cp_labels (n : nat) (e : list (nat * nat)) (i j : nat) :
  (i < n)%nat -> (j < n)%nat ->
  (append_cp n e !! i = Some 0%nat <-> single n e i) /\
  (same_cp (append_cp n e) i j <->
   connected n e i j \/ (single n e i /\ single n e j)).
Proof.
  intros Hi Hj. pose proof (connected_components_represents n e) as Hrep.
  pose proof (length_connected_components n e) as Hlen.
  destruct (lookup_lt_is_Some_2 (connected_components n e) i ltac:(lia)) as [a Ha].
  destruct (lookup_lt_is_Some_2 (connected_components n e) j ltac:(lia)) as [b Hb].
  pose proof (value_count_single n e i a Ha) as Hsa.
  pose proof (value_count_single n e j b Hb) as Hsb.
  pose proof (Hrep _ _ _ _ Ha Hb) as Hab.
  unfold same_cp, append_cp. rewrite !length_fmap, Hlen, !list_lookup_fmap, Ha, Hb.
  cbn. split.
  - rewrite <- Hsa. case_decide; split; intros H'; try assumption; try reflexivity;
      try discriminate; contradiction.
  - rewrite <- Hsa, <- Hsb, <- Hab. split.
    + intros (_ & _ & Heq). injection Heq as Heq.
      repeat case_decide; try discriminate;
        first [right; split; assumption | left; lia].
    + intros [->|[H1 H2]]; (split; [exact Hi|]; split; [exact Hj|]).
      * reflexivity.
      * rewrite !decide_True by assumption. reflexivity.
Qed.

(** X8: The label 0 of [append_cp] is the label of the single rows, and two
    rows get the same label iff they are connected or both single: the
    components are the connected components of the graph, but for the
    single rows, which are put together. *)
Theorem append_cp_components (n : nat) (e : list (nat * nat)) (i j : nat) :
  (i < n)%nat -> (j < n)%nat ->
  (append_cp n e !! i = Some 0%nat <-> single n e i) /\
  (same_cp (append_cp n e) i j <->
   connected n e i j \/ (single n e i /\ single n e j)).
Proof. apply append_cp_labels. Qed.

Lemma append_cp_components_witness :
  (append_cp 3 [(0, 1)]%nat !! 2%nat = Some 0%nat <-> single 3 [(0, 1)]%nat 2) /\
  (same_cp (append_cp 3 [(0, 1)]%nat) 2 1 <->
   connected 3 [(0, 1)]%nat 2%nat 1%nat
   \/ (single 3 [(0, 1)]%nat 2 /\ single 3 [(0, 1)]%nat 1)).
Proof. apply (append_cp_components 3 [(0, 1)]%nat 2 1); lia. Defined.

Import Cppv.

(** A row no edge touches is single. *)
Lemma isolated_single (n : nat) (e : list (nat * nat)) (i : nat) :
  (forall k, (i, k) ∉ e /\ (k, i) ∉ e) -> single n e i.
Proof.
  intros Hno k _ Hconn. symmetry. eapply rtsc_nf; [exact Hconn|].
  intros [y [[Hy _]|[Hy _]]]; apply (Hno y) in Hy; exact Hy.
Qed.

(** X9: The single events are not discarded as such.  Whatever the edge
    table, the rows it leaves single are put together under the label 0,
    and this group is aggregated and filtered like a component: with two
    single events more than a day apart on two cells, and [b < 2], the
    label 0 is among the heat waves kept, and the two events are in the
    node table kept. *)
Theorem singles_returned_as_heat_wave (e : list (nat * nat))
    (extr_data : list node) (b : Z) (i j : nat) (s t : node) :
  sort_values_time extr_data !! i = Some s ->
  sort_values_time extr_data !! j = Some t ->
  single (length (sort_values_time extr_data)) e i ->
  single (length (sort_values_time extr_data)) e j ->
  time t - time s > 1 -> g_id s <> g_id t -> b < 2 ->
  (exists r, r ∈ (create_cpv_from_edges e extr_data b).2 /\ cp r = 0%nat) /\
  (s, 0%nat) ∈ (create_cpv_from_edges e extr_data b).1 /\
  (t, 0%nat) ∈ (create_cpv_from_edges e extr_data b).1.
Proof.
  intros Hi Hj Hni Hnj Htime Hcell Hb.
  set (v := sort_values_time extr_data) in *.
  pose proof (lookup_lt_Some _ _ _ Hi) as Hil.
  pose proof (lookup_lt_Some _ _ _ Hj) as Hjl.
  destruct (append_cp_labels (length v) e i j Hil Hjl) as [Hzi _].
  destruct (append_cp_labels (length v) e j i Hjl Hil) as [Hzj _].
  assert (Hci : append_cp (length v) e !! i = Some 0%nat) by (apply Hzi, Hni).
  assert (Hcj : append_cp (length v) e !! j = Some 0%nat) by (apply Hzj, Hnj).
  assert (Hsi : (s, 0%nat) ∈ nodes_cp e extr_data).
  { apply list_elem_of_lookup. exists i. unfold nodes_cp. fold v.
    rewrite lookup_zip_with, Hi, Hci. reflexivity. }
  assert (Hsj : (t, 0%nat) ∈ nodes_cp e extr_data).
  { apply list_elem_of_lookup. exists j. unfold nodes_cp. fold v.
    rewrite lookup_zip_with, Hj, Hcj. reflexivity. }
  set (rows := filter (fun r : node * nat => r.2 = 0%nat) (nodes_cp e extr_data)).
  assert (Hrs : (s, 0%nat) ∈ rows) by (apply list_elem_of_filter; split; [reflexivity|exact Hsi]).
  assert (Hrt : (t, 0%nat) ∈ rows) by (apply list_elem_of_filter; split; [reflexivity|exact Hsj]).
  assert (Hms : s ∈ rows.*1) by (apply list_elem_of_fmap; exists (s, 0%nat); auto).
  assert (Hmt : t ∈ rows.*1) by (apply list_elem_of_fmap; exists (t, 0%nat); auto).
  assert (Hr0 : features 0 (rows.*1) ∈ (create_cpv_from_edges e extr_data b).2).
  { unfold create_cpv_from_edges. cbn [snd]. apply list_elem_of_filter. split.
    - apply keep_iff. cbn.
      assert (Hts : time s ∈ time <$> rows.*1) by (apply list_elem_of_fmap; eauto).
      assert (Htt : time t ∈ time <$> rows.*1) by (apply list_elem_of_fmap; eauto).
      pose proof (amin_le _ _ Hts). pose proof (amax_ge _ _ Htt).
      split; [lia|].
      assert (Hsub : ({[g_id s; g_id t]} : gset Z) ⊆ list_to_set (g_id <$> rows.*1)).
      { intros z Hz. apply elem_of_list_to_set, list_elem_of_fmap.
        apply elem_of_union in Hz as [Hz|Hz]; apply elem_of_singleton in Hz; subst z; eauto. }
      apply subseteq_size in Hsub.
      rewrite size_union in Hsub by set_solver. rewrite !size_singleton in Hsub. lia.
    - unfold supernodes. apply list_elem_of_fmap.
      exists (0%nat, rows). split; [reflexivity|].
      unfold DeepGraph.partition_nodes. apply list_elem_of_fmap.
      exists 0%nat. split; [reflexivity|].
      apply elem_of_remove_dups, list_elem_of_fmap. exists (s, 0%nat). auto. }
  split; [exists (features 0 (rows.*1)); split; [exact Hr0|reflexivity]|].
  assert (Hcp : 0%nat ∈ cp <$> (create_cpv_from_edges e extr_data b).2)
    by (apply list_elem_of_fmap; exists (features 0 (rows.*1)); auto).
  split; unfold create_cpv_from_edges; cbn [fst snd];
    apply elem_of_filter_by_values_v; auto.
Qed.

Lemma singles_returned_as_heat_wave_witness :
  (exists r, r ∈ (create_cpv_from_edges Singles.two_singles_edges
                    Singles.two_singles 0).2 /\ cp r = 0%nat) /\
  (Examples.ev 100 0 0 1, 0%nat)
    ∈ (create_cpv_from_edges Singles.two_singles_edges Singles.two_singles 0).1 /\
  (Examples.ev 105 9 9 2, 0%nat)
    ∈ (create_cpv_from_edges Singles.two_singles_edges Singles.two_singles 0).1.
Proof.
  apply (singles_returned_as_heat_wave Singles.two_singles_edges Singles.two_singles
           0 0%nat 1%nat (Examples.ev 100 0 0 1) (Examples.ev 105 9 9 2)).
  - reflexivity.
  - reflexivity.
  - apply isolated_single. intros k. unfold Singles.two_singles_edges.
    rewrite !list_elem_of_singleton. split; intros [= ]; discriminate.
  - apply isolated_single. intros k. unfold Singles.two_singles_edges.
    rewrite !list_elem_of_singleton. split; intros [= ]; discriminate.
  - cbn. lia.
  - cbn. lia.
  - lia.
Defined.
End SingleNodes.

(** ** The threshold table *)

Section ThresholdTable.
Import HeatwaveDetection.

Lemma elem_of_insert_sorted (a x : Q) (l : list Q) :
  x ∈ Numpy.insert_sorted a l <-> x = a \/ x ∈ l.
Proof.
  induction l as [|b l IH]; cbn.
  - rewrite list_elem_of_singleton, elem_of_nil. tauto.
  - destruct (Qle_bool a b).
    + rewrite elem_of_cons. tauto.
    + rewrite !elem_of_cons, IH. tauto.
Qed.

Lemma elem_of_sort (x : Q) (l : list Q) : x ∈ Numpy.sort l <-> x ∈ l.
Proof.
  unfold Numpy.sort. induction l as [|a l IH]; cbn [foldr]; [reflexivity|].
  rewrite elem_of_insert_sorted, elem_of_cons, IH. reflexivity.
Qed.

Lemma nth_elem_of (s : list Q) (s0 : Q) (i : nat) : s0 ∈ s -> nth i s s0 ∈ s.
Proof.
  intros H0. destruct (Nat.lt_ge_cases i (length s)) as [Hi|Hi].
  - apply list_elem_of_In, nth_In. exact Hi.
  - rewrite nth_overflow by exact Hi. exact H0.
Qed.

(** The fraction of the virtual index lies between 0 and 1. *)
Lemma gamma_range (h : Z) :
  0 <= h ->
  (0 <= inject_Z h / inject_Z 100 - inject_Z (h / 100) <= 1)%Q.
Proof.
  intros Hh. pose proof (Z.div_mod h 100 ltac:(lia)) as Hdm.
  pose proof (Z.mod_pos_bound h 100 ltac:(lia)) as Hm.
  assert (E : (inject_Z h / inject_Z 100 - inject_Z (h / 100)
               == inject_Z (h mod 100) / inject_Z 100)%Q).
  { rewrite Hdm at 1. rewrite inject_Z_plus, inject_Z_mult. field. }
  rewrite E. split.
  - apply Qle_shift_div_l; [reflexivity|]. rewrite Qmult_0_l.
    change 0%Q with (inject_Z 0). rewrite <- Zle_Qle. lia.
  - apply Qle_shift_div_r; [reflexivity|]. rewrite Qmult_1_l.
    rewrite <- Zle_Qle. lia.
Qed.

Lemma convex_range (lo hi a b g : Q) :
  (lo <= a <= hi)%Q -> (lo <= b <= hi)%Q -> (0 <= g <= 1)%Q ->
  (lo <= a + g * (b - a) <= hi)%Q.
Proof.
  intros [Ha1 Ha2] [Hb1 Hb2] [Hg1 Hg2].
  assert (H1 : (0 <= g * (b - lo))%Q) by (apply Qmult_le_0_compat; lra).
  assert (H2 : (0 <= (1 - g) * (a - lo))%Q) by (apply Qmult_le_0_compat; lra).
  assert (H3 : (0 <= g * (hi - b))%Q) by (apply Qmult_le_0_compat; lra).
  assert (H4 : (0 <= (1 - g) * (hi - a))%Q) by (apply Qmult_le_0_compat; lra).
  split; lra.
Qed.

(** A percentile lies within the range of its sample. *)
Lemma percentile_range (l : list Q) (q : Z) (lo hi p : Q) :
  0 <= q ->
  (forall x, x ∈ l -> (lo <= x <= hi)%Q) ->
  Numpy.percentile l q = Some p -> (lo <= p <= hi)%Q.
Proof.
  intros Hq Hl. unfold Numpy.percentile.
  destruct (Numpy.sort l) as [|s0 s'] eqn:Es; [discriminate|].
  intros [= <-].
  set (s := s0 :: s') in *. set (n := Z.of_nat (length s)).
  assert (Hn : 1 <= n) by (unfold n, s; cbn [length]; lia).
  assert (H0 : s0 ∈ s) by left.
  assert (Hs : forall x, x ∈ s -> (lo <= x <= hi)%Q).
  { intros x Hx. apply Hl. apply elem_of_sort. rewrite Es. exact Hx. }
  pose proof (Hs _ (nth_elem_of s s0 (Z.to_nat ((n - 1) * q / 100)) H0)) as Ha.
  pose proof (Hs _ (nth_elem_of s s0
                      (Z.to_nat (Z.min ((n - 1) * q / 100 + 1) (n - 1))) H0)) as Hb.
  pose proof (gamma_range ((n - 1) * q) ltac:(nia)) as Hg.
  apply convex_range; assumption.
Qed.

Lemma threshold_table_range (pool : list obs) (tmp2 : list thresh_row)
    (lo hi : Q) :
  (forall r, r ∈ pool -> (lo <= t2m r <= hi)%Q) ->
  threshold_table pool = Ok tmp2 ->
  forall th, th ∈ tmp2 -> (lo <= thresh th <= hi)%Q.
Proof.
  intros Hpool Htab th Hth.
  apply (elem_of_threshold_table _ _ _ Htab) in Hth as (i & t & _ & Hw & Hth).
  apply (elem_of_window_thresholds _ _ _ _ Hw) in Hth as (rows & Hg & Hp & _).
  apply elem_of_partition_nodes in Hg as [Hrows _].
  apply percentile_nested_Ok in Hp.
  apply (percentile_range _ 99 lo hi _ ltac:(lia)) in Hp; [exact Hp|].
  intros z Hz. apply list_elem_of_join in Hz as (l & Hz & Hl).
  apply list_elem_of_fmap in Hl as (c & -> & Hc).
  rewrite Hrows in Hc. apply list_elem_of_filter in Hc as [_ Hc].
  apply elem_of_filter_by_values_v in Hc as [Hc _].
  destruct (elem_of_cell_days _ _ _ Hc Hz) as (r & Hr & <- & _).
  apply Hpool, Hr.
Qed.

(** X10: Every threshold lies between the lowest and the highest temperature
    of the table the samples are pooled from. *)
Theorem thresholds_within_range (pool : list obs) (tmp2 : list thresh_row)
    (lo hi : Q) :
  (forall r, r ∈ pool -> (lo <= t2m r <= hi)%Q) ->
  threshold_table pool = Ok tmp2 ->
  forall th, th ∈ tmp2 -> (lo <= thresh th <= hi)%Q.
Proof. exact (threshold_table_range pool tmp2 lo hi). Qed.

Lemma thresholds_within_range_witness :
  (5 <= thresh {| th_x := 0; th_y := 0; th_ytime := 1; thresh := 500 # 100 |} <= 9)%Q.
Proof.
  apply (thresholds_within_range Examples.two_days
           (match threshold_table Examples.two_days with Ok t => t | Raise _ => [] end)).
  - intros r Hr. unfold Examples.two_days in Hr.
    rewrite !elem_of_cons, elem_of_nil in Hr.
    destruct Hr as [->|[->|[]]]; cbn; split; discriminate.
  - vm_compute. reflexivity.
  - apply list_elem_of_lookup. exists 0%nat. vm_compute. reflexivity.
Defined.

Lemma threshold_table_windows (pool : list obs) (tmp2 : list thresh_row) :
  threshold_table pool = Ok tmp2 ->
  exists tables,
    tmp2 = mjoin tables /\
    Forall2 (fun i t => window_thresholds (cell_days pool) i = Ok t) (seq 0 366) tables.
Proof.
  unfold threshold_table. intros H.
  destruct (res_mapM _ (seq 0 366)) as [tables|e] eqn:Et; [|discriminate H].
  cbn in H. injection H as <-. exists tables. split; [reflexivity|].
  apply res_mapM_Forall2. exact Et.
Qed.

Lemma partition_nodes_keys {A K} `{EqDecision K} (features : A -> K) (v : list A) :
  (DeepGraph.partition_nodes features v).*1 = remove_dups (features <$> v).
Proof.
  unfold DeepGraph.partition_nodes.
  induction (remove_dups (features <$> v)) as [|k ks IH]; [reflexivity|].
  cbn. f_equal. exact IH.
Qed.

(** The cells of one turn of the loop are pairwise distinct. *)
Lemma window_thresholds_keys (cpv_t : list cell_day) (i : nat) (t : list thresh_row) :
  window_thresholds cpv_t i = Ok t ->
  NoDup ((fun th => (th_x th, th_y th, th_ytime th)) <$> t) /\
  forall th, th ∈ t -> th_ytime th = Z.of_nat i + 1.
Proof.
  intros H. split.
  - unfold window_thresholds in H. apply res_mapM_Forall2 in H.
    set (tmp_p := DeepGraph.partition_nodes _ _) in H.
    assert (Hk : (fun th => (th_x th, th_y th, th_ytime th)) <$> t
                 = (fun g : Z * Z * list cell_day => (g.1.1, g.1.2, Z.of_nat i + 1))
                     <$> tmp_p).
    { induction H as [|g th l k Hg H IH]; [reflexivity|]. cbn. f_equal; [|exact IH].
      destruct (percentile_nested _ 99); [|discriminate Hg]. cbn in Hg.
      injection Hg as <-. reflexivity. }
    rewrite Hk.
    assert (Hfst : NoDup (tmp_p.*1)).
    { unfold tmp_p. rewrite partition_nodes_keys. apply NoDup_remove_dups. }
    assert (Hc : (fun g : Z * Z * list cell_day => (g.1.1, g.1.2, Z.of_nat i + 1)) <$> tmp_p
                 = (fun k : Z * Z => (k.1, k.2, Z.of_nat i + 1)) <$> tmp_p.*1).
    { rewrite <- list_fmap_compose. reflexivity. }
    rewrite Hc. apply NoDup_fmap_2; [|exact Hfst].
    intros [a b] [a' b'] [= -> ->]. reflexivity.
  - intros th Hth. apply (elem_of_window_thresholds _ _ _ _ H) in Hth as (_ & _ & _ & Hd).
    exact Hd.
Qed.

Lemma NoDup_join_tagged {K} (tag : K -> Z) (tables : list (list K)) (start : nat) :
  Forall2 (fun i t => NoDup t /\ forall k, k ∈ t -> tag k = Z.of_nat i)
          (seq start (length tables)) tables ->
  NoDup (mjoin tables).
Proof.
  revert start. induction tables as [|t tables IH]; intros start H; [constructor|].
  cbn [length seq] in H. inversion H as [|? ? ? ? [Hnd Htag] Hrest]; subst.
  cbn. apply NoDup_app. split; [exact Hnd|]. split; [|apply (IH (S start)), Hrest].
  intros k Hk Hk'. apply list_elem_of_join in Hk' as (t' & Hk' & Ht').
  apply list_elem_of_lookup in Ht' as [j Hj].
  destruct (Forall2_lookup_r _ _ _ _ _ Hrest Hj) as (i' & Hi' & _ & Htag').
  apply lookup_seq in Hi' as [-> _].
  specialize (Htag k Hk). specialize (Htag' k Hk'). lia.
Qed.

Lemma threshold_table_keys (pool : list obs) (tmp2 : list thresh_row) :
  threshold_table pool = Ok tmp2 ->
  NoDup ((fun th => (th_x th, th_y th, th_ytime th)) <$> tmp2).
Proof.
  intros H. destruct (threshold_table_windows _ _ H) as (tables & -> & HF).
  assert (Hlen : length tables = 366%nat)
    by (apply Forall2_length in HF; rewrite length_seq in HF; lia).
  assert (Hj : (fun th => (th_x th, th_y th, th_ytime th)) <$> mjoin tables
               = mjoin ((fmap (fun th => (th_x th, th_y th, th_ytime th))) <$> tables)).
  { clear. induction tables as [|t ts IH]; [reflexivity|].
    change (mjoin (t :: ts)) with (t ++ mjoin ts). rewrite fmap_app, IH.
    reflexivity. }
  rewrite Hj.
  apply (NoDup_join_tagged (fun k : Z * Z * Z => k.2 - 1) _ 0).
  rewrite length_fmap, Hlen. apply Forall2_fmap_r.
  eapply Forall2_impl; [exact HF|]. intros i t Hw. cbn beta.
  destruct (window_thresholds_keys _ _ _ Hw) as [Hnd Hd]. split; [exact Hnd|].
  intros k Hk. apply list_elem_of_fmap in Hk as (th & -> & Hth). cbn.
  rewrite (Hd th Hth). lia.
Qed.

Lemma filter_key_length {A K} `{EqDecision K} (key : A -> K) (l : list A) (k : K) :
  NoDup (key <$> l) -> (length (filter (fun a => key a = k) l) <= 1)%nat.
Proof.
  induction l as [|a l IH]; intros Hnd; [cbn; lia|].
  cbn in Hnd. apply NoDup_cons in Hnd as [Ha Hnd]. rewrite filter_cons.
  case_decide as Hk; [|apply IH, Hnd].
  assert (Hnil : filter (fun a0 => key a0 = k) l = []).
  { destruct (filter (fun a0 => key a0 = k) l) as [|b f] eqn:Ef; [reflexivity|].
    assert (Hb : b ∈ filter (fun a0 => key a0 = k) l) by (rewrite Ef; left).
    apply list_elem_of_filter in Hb as [Hkb Hb]. exfalso. apply Ha.
    rewrite Hk, <- Hkb. apply list_elem_of_fmap. eauto. }
  rewrite Hnil. cbn. lia.
Qed.

(** X11: A cell and a day have at most one threshold, the days of the table
    are the days 1 to 366, and merging the thresholds into a table never
    repeats a record: the records of the result are records of the table,
    in their order. *)
Theorem threshold_table_one_per_cell_day (pool : list obs) (tmp2 : list thresh_row) :
  threshold_table pool = Ok tmp2 ->
  NoDup ((fun th => (th_x th, th_y th, th_ytime th)) <$> tmp2) /\
  (forall th, th ∈ tmp2 -> 1 <= th_ytime th <= 366) /\
  (forall vt, (r_obs <$> merge vt tmp2) `sublist_of` vt).
Proof.
  intros H. pose proof (threshold_table_keys _ _ H) as Hnd.
  split; [exact Hnd|]. split.
  - intros th Hth.
    apply (elem_of_threshold_table _ _ _ H) in Hth as (i & t & Hi & Hw & Hth).
    destruct (window_thresholds_keys _ _ _ Hw) as [_ Hd]. rewrite (Hd th Hth). lia.
  - intros vt. unfold merge. induction vt as [|r vt IH]; [constructor|].
    rewrite bind_cons, fmap_app.
    pose proof (filter_key_length (fun th => (th_x th, th_y th, th_ytime th)) tmp2
                  (x r, y r, ytime r) Hnd) as Hlen.
    assert (Hf : filter (fun th => th_ytime th = ytime r /\ th_x th = x r /\ th_y th = y r)
                   tmp2
                 = filter (fun th => (th_x th, th_y th, th_ytime th) = (x r, y r, ytime r))
                     tmp2).
    { apply list_filter_iff. intros th. split; [intros (-> & -> & ->); reflexivity|].
      intros [= -> -> ->]. auto. }
    rewrite Hf.
    destruct (filter _ tmp2) as [|th [|th' f]]; cbn in Hlen |- *; [|..].
    + apply sublist_cons. exact IH.
    + apply sublist_skip. exact IH.
    + lia.
Qed.

Lemma threshold_table_one_per_cell_day_witness :
  (r_obs <$> merge Examples.two_days
               (match threshold_table Examples.two_days with
                | Ok t => t
                | Raise _ => []
                end)) `sublist_of` Examples.two_days.
Proof.
  apply (threshold_table_one_per_cell_day Examples.two_days).
  vm_compute. reflexivity.
Defined.

Lemma threshold_table_window_Ok (pool : list obs) (tmp2 : list thresh_row) (i : nat) :
  threshold_table pool = Ok tmp2 -> (i < 366)%nat ->
  exists t, window_thresholds (cell_days pool) i = Ok t.
Proof.
  intros H Hi. destruct (threshold_table_windows _ _ H) as (tables & _ & HF).
  destruct (Forall2_lookup_l _ _ _ i i HF) as (t & _ & Ht).
  - apply lookup_seq. split; [reflexivity|exact Hi].
  - exists t. exact Ht.
Qed.

Lemma window_366_is_window_1 :
  slice time_window 365 (365 + 31) = slice time_window 0 (0 + 31).
Proof. vm_compute. reflexivity. Qed.

(** X12: The threshold of day 366 of a cell is the threshold of its day 1: the
    two days have the same window. *)
Theorem threshold_366_is_threshold_1 (pool : list obs) (tmp2 : list thresh_row)
    (cx cy : Z) (q : Q) :
  threshold_table pool = Ok tmp2 ->
  {| th_x := cx; th_y := cy; th_ytime := 366; thresh := q |} ∈ tmp2 <->
  {| th_x := cx; th_y := cy; th_ytime := 1; thresh := q |} ∈ tmp2.
Proof.
  intros H.
  destruct (threshold_table_window_Ok _ _ 0 H ltac:(lia)) as [t0 Ht0].
  destruct (threshold_table_window_Ok _ _ 365 H ltac:(lia)) as [t365 Ht365].
  rewrite !(elem_of_threshold_table _ _ _ H). split.
  - intros (i & t & Hi & Hw & Hth).
    pose proof (proj1 (elem_of_window_thresholds _ _ _ _ Hw) Hth) as (rows & Hg & Hp & Hd).
    cbn in Hg, Hp, Hd. assert (i = 365%nat) by lia. subst i.
    rewrite window_366_is_window_1 in Hg.
    exists 0%nat, t0. split; [lia|]. split; [exact Ht0|].
    apply (elem_of_window_thresholds _ _ _ _ Ht0). exists rows. cbn. auto.
  - intros (i & t & Hi & Hw & Hth).
    pose proof (proj1 (elem_of_window_thresholds _ _ _ _ Hw) Hth) as (rows & Hg & Hp & Hd).
    cbn in Hg, Hp, Hd. assert (i = 0%nat) by lia. subst i.
    rewrite <- window_366_is_window_1 in Hg.
    exists 365%nat, t365. split; [lia|]. split; [exact Ht365|].
    apply (elem_of_window_thresholds _ _ _ _ Ht365). exists rows. cbn. auto.
Qed.

Lemma threshold_366_is_threshold_1_witness :
  {| th_x := 0; th_y := 0; th_ytime := 366; thresh := 500 # 100 |}
    ∈ match threshold_table Examples.two_days with Ok t => t | Raise _ => [] end <->
  {| th_x := 0; th_y := 0; th_ytime := 1; thresh := 500 # 100 |}
    ∈ match threshold_table Examples.two_days with Ok t => t | Raise _ => [] end.
Proof.
  apply (threshold_366_is_threshold_1 Examples.two_days).
  vm_compute. reflexivity.
Defined.
End ThresholdTable.

(** ** The day index *)

Section DayIndex.
Import Cppv Itime.

Lemma tdic_lookup (tmin tmax t : Z) :
  tmin <= t <= tmax -> tdic (date_range tmin tmax) !! t = Some (t - tmin).
Proof.
  intros Ht. unfold tdic, date_range. rewrite length_seqZ.
  rewrite Z2Nat.id by lia. set (n := tmax - tmin + 1).
  apply elem_of_list_to_map.
  - rewrite fst_zip by (rewrite !length_seqZ; lia). apply NoDup_seqZ.
  - apply list_elem_of_lookup. exists (Z.to_nat (t - tmin)).
    rewrite lookup_zip_with.
    rewrite !lookup_seqZ_lt by (unfold n; lia). cbn. f_equal. f_equal; lia.
Qed.

Lemma res_mapM_fmap {A B} (f : A -> res B) (g : A -> B) (l : list A) :
  (forall a, a ∈ l -> f a = Ok (g a)) -> res_mapM f l = Ok (g <$> l).
Proof.
  induction l as [|a l IH]; intros H; [reflexivity|].
  cbn. rewrite (H a) by left. cbn. rewrite IH by (intros a' Ha'; apply H; right; exact Ha').
  reflexivity.
Qed.

(** X13: Every event gets a day index, the offset of its day from the day of
    the first event modulo 65536, and no key is ever missing; when the
    events span fewer than 65536 days the index is the offset itself. *)
Theorem add_itime_offsets (extr : list node) :
  extr <> [] ->
  add_itime extr
  = Ok ((fun r => set_itime r ((time r - amin (time <$> extr)) `mod` 65536)) <$> extr)
  /\ (amax (time <$> extr) - amin (time <$> extr) < 65536 ->
      forall extr', add_itime extr = Ok extr' ->
        forall r, r ∈ extr' -> itime r = time r - amin (time <$> extr)).
Proof.
  intros Hne.
  assert (Hok : add_itime extr
                = Ok ((fun r => set_itime r ((time r - amin (time <$> extr)) `mod` 65536))
                        <$> extr)).
  { unfold add_itime. destruct extr as [|r0 extr0] eqn:E; [contradiction|].
    rewrite <- E. apply res_mapM_fmap. intros r Hr.
    assert (Ht : time r ∈ time <$> extr) by (apply list_elem_of_fmap; eauto).
    pose proof (amin_le _ _ Ht). pose proof (amax_ge _ _ Ht).
    rewrite tdic_lookup by lia. reflexivity. }
  split; [exact Hok|].
  intros Hspan extr' H' r Hr. rewrite Hok in H'. injection H' as <-.
  apply list_elem_of_fmap in Hr as (r0 & -> & Hr0). cbn.
  assert (Ht : time r0 ∈ time <$> extr) by (apply list_elem_of_fmap; eauto).
  pose proof (amin_le _ _ Ht). pose proof (amax_ge _ _ Ht).
  apply Z.mod_small. lia.
Qed.

Lemma add_itime_offsets_witness :
  add_itime Examples.two_day_event
  = Ok ((fun r => set_itime r ((time r - amin (time <$> Examples.two_day_event))
                               `mod` 65536)) <$> Examples.two_day_event).
Proof.
  apply (add_itime_offsets Examples.two_day_event). discriminate.
Defined.
End DayIndex.

(** ** Order of the magnitudes *)

Section MagnitudeOrder.
Import Magnitude.

Lemma Qdiv_le_compat (a b d : Q) : (0 < d)%Q -> (a <= b)%Q -> (a / d <= b / d)%Q.
Proof.
  intros Hd Hab. unfold Qdiv. apply Qmult_le_compat_r; [exact Hab|].
  apply Qinv_le_0_compat. apply Qlt_le_weak. exact Hd.
Qed.

(** X14: With [p25 < p75] the magnitude grows with the temperature; it is
    at least 1 from [p75] on and at most 1 up to [p75]. *)
Theorem calc_mag_monotone (p25 p75 v1 v2 : Q) :
  (p25 < p75)%Q -> (v1 <= v2)%Q ->
  exists m1 m2,
    calc_mag {| t2m := v1; t2m_amax_perc25 := p25; t2m_amax_perc75 := p75 |} = Value m1 /\
    calc_mag {| t2m := v2; t2m_amax_perc25 := p25; t2m_amax_perc75 := p75 |} = Value m2 /\
    (m1 <= m2)%Q /\
    ((p75 <= v2)%Q -> (1 <= m2)%Q) /\
    ((v2 <= p75)%Q -> (m2 <= 1)%Q).
Proof.
  intros Hp Hv.
  assert (Hd : (0 < p75 - p25)%Q) by lra.
  assert (Hnz : ~ (p75 - p25 == 0)%Q) by lra.
  unfold calc_mag. cbn.
  destruct (Qlt_le_dec p25 v1) as [H1|H1]; destruct (Qlt_le_dec p25 v2) as [H2|H2];
    rewrite ?(fdiv_nonzero _ _ Hnz); try lra.
  - eexists _, _. split; [reflexivity|]. split; [reflexivity|]. split.
    + apply Qdiv_le_compat; lra.
    + split.
      * intros Hm. apply Qle_shift_div_l; [exact Hd|]. lra.
      * intros Hm. apply Qle_shift_div_r; [exact Hd|]. lra.
  - eexists _, _. split; [reflexivity|]. split; [reflexivity|]. split.
    + apply Qle_shift_div_l; [exact Hd|]. lra.
    + split.
      * intros Hm. apply Qle_shift_div_l; [exact Hd|]. lra.
      * intros Hm. apply Qle_shift_div_r; [exact Hd|]. lra.
  - eexists _, _. split; [reflexivity|]. split; [reflexivity|]. split; [lra|].
    split; intros; lra.
Qed.

Lemma calc_mag_monotone_witness :
  exists m1 m2,
    calc_mag {| t2m := 15; t2m_amax_perc25 := 10; t2m_amax_perc75 := 30 |} = Value m1 /\
    calc_mag {| t2m := 35; t2m_amax_perc25 := 10; t2m_amax_perc75 := 30 |} = Value m2 /\
    (m1 <= m2)%Q /\
    ((30 <= 35)%Q -> (1 <= m2)%Q) /\
    ((35 <= 30)%Q -> (m2 <= 1)%Q).
Proof. apply (calc_mag_monotone 10 30 15 35); reflexivity || discriminate. Defined.
End MagnitudeOrder.

(** ** Order of the percentiles *)

Section PercentileOrder.
Import Magnitude.

Lemma insert_sorted_sorted (a : Q) (l : list Q) :
  StronglySorted Qle l -> StronglySorted Qle (Numpy.insert_sorted a l).
Proof.
  intros Hs. induction Hs as [|b l Hs IH Hall]; cbn.
  - repeat constructor.
  - destruct (Qle_bool a b) eqn:E.
    + apply Qle_bool_iff in E. constructor; [constructor; assumption|].
      constructor; [exact E|]. eapply Forall_impl; [exact Hall|].
      intros c Hc. cbn in Hc. lra.
    + assert (Hba : (b <= a)%Q).
      { destruct (Qlt_le_dec b a) as [H|H]; [lra|].
        apply Qle_bool_iff in H. congruence. }
      constructor; [exact IH|]. apply Forall_forall. intros c Hc.
      apply elem_of_insert_sorted in Hc as [->|Hc]; [exact Hba|].
      rewrite Forall_forall in Hall. apply Hall, Hc.
Qed.

Lemma sort_sorted (l : list Q) : StronglySorted Qle (Numpy.sort l).
Proof.
  unfold Numpy.sort. induction l as [|a l IH]; cbn [foldr]; [constructor|].
  apply insert_sorted_sorted, IH.
Qed.

Lemma length_insert_sorted (a : Q) (l : list Q) :
  length (Numpy.insert_sorted a l) = S (length l).
Proof.
  induction l as [|b l IH]; cbn; [reflexivity|].
  destruct (Qle_bool a b); cbn; [reflexivity|]. rewrite IH. reflexivity.
Qed.

Lemma nth_sorted (s : list Q) (d : Q) (i j : nat) :
  StronglySorted Qle s -> (i <= j < length s)%nat -> (nth i s d <= nth j s d)%Q.
Proof.
  intros Hs Hij.
  destruct (lookup_lt_is_Some_2 s i ltac:(lia)) as [a Ha].
  destruct (lookup_lt_is_Some_2 s j ltac:(lia)) as [b Hb].
  rewrite !nth_lookup, Ha, Hb. cbn.
  destruct (decide (i = j)) as [->|Hne].
  - assert (a = b) by congruence. subst. lra.
  - apply (StronglySorted_lookup Qle s i j a b Hs ltac:(lia) Ha Hb).
Qed.

Lemma interp_monotone (a b g1 g2 : Q) :
  (a <= b)%Q -> (g1 <= g2)%Q -> (a + g1 * (b - a) <= a + g2 * (b - a))%Q.
Proof.
  intros Hab Hg.
  assert (Hprod : (0 <= (g2 - g1) * (b - a))%Q) by (apply Qmult_le_0_compat; lra).
  lra.
Qed.

Lemma interpolation_monotone (s : list Q) (s0 : Q) (q1 q2 : Z) :
  StronglySorted Qle s -> (1 <= length s)%nat ->
  0 <= q1 <= q2 -> q2 <= 100 ->
  let n := Z.of_nat (length s) in
  let p (q : Z) :=
    (nth (Z.to_nat ((n - 1) * q / 100)) s s0
     + (inject_Z ((n - 1) * q) / inject_Z 100 - inject_Z ((n - 1) * q / 100))
       * (nth (Z.to_nat (Z.min ((n - 1) * q / 100 + 1) (n - 1))) s s0
          - nth (Z.to_nat ((n - 1) * q / 100)) s s0))%Q in
  (p q1 <= p q2)%Q.
Proof.
  intros Hs Hlen Hq1 Hq2 n p. unfold p.
  assert (Hn : 1 <= n) by (unfold n; lia).
  assert (Hh : 0 <= (n - 1) * q1 <= (n - 1) * q2) by nia.
  assert (Hh2 : (n - 1) * q2 <= (n - 1) * 100) by nia.
  pose proof (Z.div_le_mono _ _ 100 ltac:(lia) (proj2 Hh)) as Hlo.
  pose proof (Z.div_le_upper_bound ((n - 1) * q2) 100 (n - 1) ltac:(lia) ltac:(lia)) as Hup.
  pose proof (Z.div_pos ((n - 1) * q1) 100 ltac:(lia) ltac:(lia)) as Hpos.
  pose proof (gamma_range ((n - 1) * q1) ltac:(lia)) as Hg1.
  pose proof (gamma_range ((n - 1) * q2) ltac:(lia)) as Hg2.
  assert (Hg : (inject_Z ((n - 1) * q1) / inject_Z 100
                <= inject_Z ((n - 1) * q2) / inject_Z 100)%Q).
  { apply Qdiv_le_compat; [reflexivity|]. rewrite <- Zle_Qle. lia. }
  generalize dependent (inject_Z ((n - 1) * q1) / inject_Z 100)%Q.
  generalize dependent (inject_Z ((n - 1) * q2) / inject_Z 100)%Q.
  generalize dependent ((n - 1) * q1 / 100). generalize dependent ((n - 1) * q2 / 100).
  intros lo2 Hup lo1 Hlo Hpos f2 Hg2 f1 Hg1 Hg.
  assert (Hnth : forall i j : Z, 0 <= i <= j -> j <= n - 1 ->
                   (nth (Z.to_nat i) s s0 <= nth (Z.to_nat j) s s0)%Q).
  { intros i j Hi Hj. apply nth_sorted; [exact Hs|]. unfold n in Hj. lia. }
  pose proof (Hnth lo1 (Z.min (lo1 + 1) (n - 1)) ltac:(lia) ltac:(lia)) as Hab1.
  pose proof (Hnth lo2 (Z.min (lo2 + 1) (n - 1)) ltac:(lia) ltac:(lia)) as Hab2.
  destruct (decide (lo1 = lo2)) as [<-|Hne].
  - apply interp_monotone; [exact Hab1|lra].
  - pose proof (Hnth (Z.min (lo1 + 1) (n - 1)) lo2 ltac:(lia) ltac:(lia)) as Hmid.
    pose proof (convex_range _ _ _ _ _ (conj (Qle_refl _) Hab1) (conj Hab1 (Qle_refl _)) Hg1)
      as [_ Hp1].
    pose proof (convex_range _ _ _ _ _ (conj (Qle_refl _) Hab2) (conj Hab2 (Qle_refl _)) Hg2)
      as [Hp2 _].
    exact (Qle_trans _ _ _ Hp1 (Qle_trans _ _ _ Hmid Hp2)).
Qed.

(** The percentile of a sample does not fall when the rank rises. *)
Lemma percentile_monotone (l : list Q) (q1 q2 : Z) (p1 p2 : Q) :
  0 <= q1 <= q2 -> q2 <= 100 ->
  Numpy.percentile l q1 = Some p1 -> Numpy.percentile l q2 = Some p2 ->
  (p1 <= p2)%Q.
Proof.
  intros Hq1 Hq2. unfold Numpy.percentile.
  pose proof (sort_sorted l) as Hs.
  destruct (Numpy.sort l) as [|s0 s'] eqn:Es; [discriminate|].
  intros H1 H2. injection H1 as <-. injection H2 as <-.
  exact (interpolation_monotone (s0 :: s') s0 q1 q2 Hs ltac:(cbn; lia) Hq1 Hq2).
Qed.

(** X15: The two percentiles of the annual maxima of a cell are in order, so
    the magnitude of an event is never negative: it is a number at least 0,
    or the quotient has a zero denominator. *)
Theorem calc_mag_never_negative (maxima : list Q) (v p25 p75 : Q) :
  perc25 maxima = Some p25 -> perc75 maxima = Some p75 ->
  (p25 <= p75)%Q /\
  (calc_mag {| t2m := v; t2m_amax_perc25 := p25; t2m_amax_perc75 := p75 |}
   = DivisionByZero
   \/ exists m,
        calc_mag {| t2m := v; t2m_amax_perc25 := p25; t2m_amax_perc75 := p75 |}
        = Value m /\ (0 <= m)%Q).
Proof.
  intros H25 H75.
  assert (Hp : (p25 <= p75)%Q)
    by (apply (percentile_monotone maxima 25 75); [lia|lia|exact H25|exact H75]).
  split; [exact Hp|].
  unfold calc_mag. cbn. destruct (Qlt_le_dec p25 v) as [Hv|Hv].
  - unfold fdiv. destruct (Qeq_bool (p75 - p25) 0) eqn:E; [left; reflexivity|].
    right. eexists. split; [reflexivity|].
    assert (Hnz : ~ (p75 - p25 == 0)%Q).
    { intros Hz. apply Qeq_bool_iff in Hz. congruence. }
    apply Qle_shift_div_l; lra.
  - right. exists 0%Q. split; [reflexivity|lra].
Qed.

Lemma calc_mag_never_negative_witness :
  exists p25 p75,
    perc25 [10; 30; 20; 25]%Q = Some p25 /\ perc75 [10; 30; 20; 25]%Q = Some p75 /\
    (p25 <= p75)%Q.
Proof.
  eexists _, _. split; [reflexivity|]. split; [reflexivity|].
  exact (proj1 (calc_mag_never_negative [10; 30; 20; 25]%Q 28 _ _ eq_refl eq_refl)).
Defined.
End PercentileOrder.

(** ** Meteorological seasons *)

Section MeteorologicalSeasons.
Import SeasonalAnalysis.

Lemma Qle_bool_false (a b : Q) : Qle_bool a b = false <-> (b < a)%Q.
Proof.
  split.
  - intros E. destruct (Qlt_le_dec b a) as [H|H]; [exact H|].
    apply Qle_bool_iff in H. congruence.
  - intros H. destruct (Qle_bool a b) eqn:E; [|reflexivity].
    apply Qle_bool_iff in E. lra.
Qed.

Lemma season_cases (d : Q) :
  (get_meteorological_season d = 0 /\ ((335 <= d)%Q \/ (d <= 59)%Q)) \/
  (get_meteorological_season d = 1 /\ (60 <= d <= 151)%Q) \/
  (get_meteorological_season d = 2 /\ (152 <= d <= 243)%Q) \/
  (get_meteorological_season d = 3 /\ (244 <= d <= 334)%Q) \/
  (get_meteorological_season d = -1 /\
   ((59 < d < 60)%Q \/ (151 < d < 152)%Q \/ (243 < d < 244)%Q \/ (334 < d < 335)%Q)).
Proof.
  unfold get_meteorological_season.
  destruct (Qle_bool 335 d) eqn:E1; [apply Qle_bool_iff in E1; auto|].
  destruct (Qle_bool d 59) eqn:E2; [apply Qle_bool_iff in E2; auto|].
  apply Qle_bool_false in E1, E2. cbn [orb].
  destruct (Qle_bool 60 d) eqn:E3; [apply Qle_bool_iff in E3|apply Qle_bool_false in E3];
    cbn [andb]; [|right; right; right; right; split; [|left; split; assumption]].
  2: { destruct (Qle_bool 152 d) eqn:E5; [apply Qle_bool_iff in E5; lra|].
       destruct (Qle_bool 244 d) eqn:E7; [apply Qle_bool_iff in E7; lra|]. reflexivity. }
  destruct (Qle_bool d 151) eqn:E4; [apply Qle_bool_iff in E4; auto|].
  apply Qle_bool_false in E4.
  destruct (Qle_bool 152 d) eqn:E5; [apply Qle_bool_iff in E5|apply Qle_bool_false in E5];
    cbn [andb]; [|right; right; right; right; split; [|right; left; split; assumption]].
  2: { destruct (Qle_bool 244 d) eqn:E7; [apply Qle_bool_iff in E7; lra|]. reflexivity. }
  destruct (Qle_bool d 243) eqn:E6; [apply Qle_bool_iff in E6; auto 6|].
  apply Qle_bool_false in E6.
  destruct (Qle_bool 244 d) eqn:E7; [apply Qle_bool_iff in E7|apply Qle_bool_false in E7];
    cbn [andb]; [|right; right; right; right; split; [reflexivity|right; right; left; split; assumption]].
  destruct (Qle_bool d 334) eqn:E8; [apply Qle_bool_iff in E8; auto 8|].
  apply Qle_bool_false in E8.
  right; right; right; right. split; [reflexivity|]. right; right; right. split; assumption.
Qed.

(** X16: The error code -1 of [get_meteorological_season] is returned exactly
    on the fractional days between two seasons, which a mean day of the
    year can be; a whole day of the year always gets one of the seasons 0
    to 3. *)
Theorem meteorological_season_gaps :
  (forall d : Q,
     get_meteorological_season d = -1 <->
     (59 < d < 60)%Q \/ (151 < d < 152)%Q \/ (243 < d < 244)%Q \/ (334 < d < 335)%Q) /\
  (forall z : Z, 0 <= get_meteorological_season (inject_Z z) <= 3).
Proof.
  split.
  - intros d. destruct (season_cases d) as [[E H]|[[E H]|[[E H]|[[E H]|[E H]]]]];
      rewrite E; split; try discriminate; try (intros _; exact H);
      try (intros _; reflexivity);
      intros H'; exfalso; destruct H' as [?|[?|[?|?]]]; try destruct H as [?|?]; lra.
  - intros z. destruct (season_cases (inject_Z z)) as [[E H]|[[E H]|[[E H]|[[E H]|[E H]]]]];
      rewrite E; try lia.
    exfalso.
    change 59%Q with (inject_Z 59) in H. change 60%Q with (inject_Z 60) in H.
    change 151%Q with (inject_Z 151) in H. change 152%Q with (inject_Z 152) in H.
    change 243%Q with (inject_Z 243) in H. change 244%Q with (inject_Z 244) in H.
    change 334%Q with (inject_Z 334) in H. change 335%Q with (inject_Z 335) in H.
    rewrite <- !Zlt_Qlt in H. lia.
Qed.

(** X17: A season code has a name and a label exactly when it is one of 0 to
    3; the season of a whole day of the year is never ['Unknown']. *)
Theorem season_name_unknown :
  (forall c : Z, season_name c = "Unknown"%string <-> ~ 0 <= c <= 3) /\
  (forall c : Z, season_label c = "UNK"%string <-> ~ 0 <= c <= 3) /\
  (forall z : Z, season_name (get_meteorological_season (inject_Z z)) <> "Unknown"%string).
Proof.
  assert (Hn : forall c : Z, season_name c = "Unknown"%string <-> ~ 0 <= c <= 3).
  { intros c. unfold season_name, season_names.
    destruct (decide (c = 0)) as [->|H0]; [split; [discriminate|lia]|].
    destruct (decide (c = 1)) as [->|H1]; [split; [discriminate|lia]|].
    destruct (decide (c = 2)) as [->|H2]; [split; [discriminate|lia]|].
    destruct (decide (c = 3)) as [->|H3]; [split; [discriminate|lia]|].
    cbn. rewrite !lookup_insert_ne, lookup_empty by congruence. cbn.
    split; [lia|reflexivity]. }
  split; [exact Hn|]. split.
  - intros c. unfold season_label, season_labels.
    destruct (decide (c = 0)) as [->|H0]; [split; [discriminate|lia]|].
    destruct (decide (c = 1)) as [->|H1]; [split; [discriminate|lia]|].
    destruct (decide (c = 2)) as [->|H2]; [split; [discriminate|lia]|].
    destruct (decide (c = 3)) as [->|H3]; [split; [discriminate|lia]|].
    cbn. rewrite !lookup_insert_ne, lookup_empty by congruence. cbn.
    split; [lia|reflexivity].
  - intros z Hz. apply Hn in Hz. apply Hz.
    destruct (season_cases (inject_Z z)) as [[E H]|[[E H]|[[E H]|[[E H]|[E H]]]]];
      rewrite E; try lia.
    exfalso.
    change 59%Q with (inject_Z 59) in H. change 60%Q with (inject_Z 60) in H.
    change 151%Q with (inject_Z 151) in H. change 152%Q with (inject_Z 152) in H.
    change 243%Q with (inject_Z 243) in H. change 244%Q with (inject_Z 244) in H.
    change 334%Q with (inject_Z 334) in H. change 335%Q with (inject_Z 335) in H.
    rewrite <- !Zlt_Qlt in H. lia.
Qed.
End MeteorologicalSeasons.

(** ** Relabelling by size *)

Section RelabelBySize.
Import DeepGraph Partition ClusteringStep2.

Global Instance more_frequent_transitive labels : Transitive (more_frequent labels).
Proof. unfold more_frequent. intros a b c. lia. Qed.

Global Instance more_frequent_total labels : Total (more_frequent labels).
Proof. unfold more_frequent. intros a b. lia. Qed.

Lemma value_counts_index_NoDup (labels : list nat) : NoDup (value_counts_index labels).
Proof.
  unfold value_counts_index. rewrite merge_sort_Permutation. apply NoDup_remove_dups.
Qed.

Lemma elem_of_value_counts_index (labels : list nat) (x : nat) :
  x ∈ value_counts_index labels <-> x ∈ labels.
Proof.
  unfold value_counts_index. rewrite merge_sort_Permutation. apply elem_of_remove_dups.
Qed.

Lemma length_value_counts_index (labels : list nat) :
  length (value_counts_index labels) = length (remove_dups labels).
Proof. unfold value_counts_index. rewrite merge_sort_Permutation. reflexivity. Qed.

(** [fdic[x]] is the position of [x] in the list of labels. *)
Lemma fdic_Ok (f : list nat) (x k : nat) :
  NoDup f -> fdic f x = Ok k <-> f !! k = Some x.
Proof.
  intros Hnd. unfold fdic.
  destruct (list_find (fun j => j = x) f) as [[i y]|] eqn:E; cbn.
  - apply list_find_Some in E as (Hi & -> & _). split.
    + intros [= <-]. exact Hi.
    + intros Hk. f_equal. apply (NoDup_lookup f i k x Hnd Hi Hk).
  - split; [discriminate|]. intros Hk. apply list_find_None in E.
    rewrite Forall_forall in E. exfalso. apply (E x); [|reflexivity].
    eapply list_elem_of_lookup_2. exact Hk.
Qed.

Lemma relabel_by_size_lookup (labels labels' : list nat) (i a : nat) :
  relabel_by_size labels = Ok labels' ->
  labels !! i = Some a ->
  exists k, labels' !! i = Some k /\ value_counts_index labels !! k = Some a.
Proof.
  unfold relabel_by_size. intros H Ha. apply res_mapM_Forall2 in H.
  destruct (Forall2_lookup_l _ _ _ _ _ H Ha) as (k & Hk & Hf).
  exists k. split; [exact Hk|].
  apply fdic_Ok; [apply value_counts_index_NoDup|exact Hf].
Qed.

Lemma relabel_by_size_count (labels labels' : list nat) (k a : nat) :
  relabel_by_size labels = Ok labels' ->
  value_counts_index labels !! k = Some a ->
  value_count labels' k = value_count labels a.
Proof.
  intros H Hk. apply value_count_kernel.
  - unfold relabel_by_size in H. apply res_mapM_length in H. exact H.
  - intros i b' b Hb' Hb.
    destruct (relabel_by_size_lookup _ _ _ _ H Hb) as (k' & Hk' & Hf).
    assert (b' = k') by congruence. subst k'.
    pose proof (value_counts_index_NoDup labels) as Hnd. split.
    + intros ->. congruence.
    + intros ->. apply (NoDup_lookup _ _ _ _ Hnd Hf Hk).
Qed.

Lemma relabel_by_size_same_cp (labels labels' : list nat) (i j : nat) :
  relabel_by_size labels = Ok labels' ->
  same_cp labels' i j <-> same_cp labels i j.
Proof.
  intros H. pose proof (value_counts_index_NoDup labels) as Hnd.
  assert (Hlen : length labels' = length labels)
    by (unfold relabel_by_size in H; apply res_mapM_length in H; lia).
  unfold same_cp. rewrite Hlen. split; intros (Hi & Hj & Heq);
    (split; [exact Hi|]; split; [exact Hj|]);
    destruct (lookup_lt_is_Some_2 labels i Hi) as [a Ha];
    destruct (lookup_lt_is_Some_2 labels j Hj) as [b Hb];
    destruct (relabel_by_size_lookup _ _ _ _ H Ha) as (ka & Hka & Hfa);
    destruct (relabel_by_size_lookup _ _ _ _ H Hb) as (kb & Hkb & Hfb).
  - rewrite Ha, Hb. rewrite Hka, Hkb in Heq. injection Heq as ->. congruence.
  - rewrite Hka, Hkb. rewrite Ha, Hb in Heq. injection Heq as ->.
    f_equal. apply (NoDup_lookup _ _ _ _ Hnd Hfa Hfb).
Qed.

Lemma relabel_by_size_range (labels labels' : list nat) :
  relabel_by_size labels = Ok labels' ->
  forall k, k ∈ labels' <-> (k < length (remove_dups labels))%nat.
Proof.
  intros H k. pose proof (value_counts_index_NoDup labels) as Hnd.
  assert (Hlen : length labels' = length labels)
    by (unfold relabel_by_size in H; apply res_mapM_length in H; lia).
  rewrite <- (length_value_counts_index labels). split.
  - intros Hk. apply list_elem_of_lookup in Hk as [i Hi].
    assert (Hil : (i < length labels)%nat) by (apply lookup_lt_Some in Hi; lia).
    destruct (lookup_lt_is_Some_2 labels i Hil) as [a Ha].
    destruct (relabel_by_size_lookup _ _ _ _ H Ha) as (k' & Hk' & Hf).
    assert (k = k') by congruence. subst k'. apply lookup_lt_Some in Hf. exact Hf.
  - intros Hk. destruct (lookup_lt_is_Some_2 _ k Hk) as [a Ha].
    assert (Hin : a ∈ labels)
      by (apply elem_of_value_counts_index; eapply list_elem_of_lookup_2; exact Ha).
    apply list_elem_of_lookup in Hin as [i Hi].
    destruct (relabel_by_size_lookup _ _ _ _ H Hi) as (k' & Hk' & Hf).
    assert (k = k') by (apply (NoDup_lookup _ _ _ _ Hnd Ha Hf)). subst k'.
    eapply list_elem_of_lookup_2. exact Hk'.
Qed.

Lemma relabel_by_size_counts (labels labels' : list nat) (k1 k2 : nat) :
  relabel_by_size labels = Ok labels' -> (k1 <= k2)%nat ->
  (value_count labels' k2 <= value_count labels' k1)%nat.
Proof.
  intros H Hle.
  assert (Hlen : length labels' = length labels)
    by (unfold relabel_by_size in H; apply res_mapM_length in H; lia).
  destruct (decide (k2 < length (value_counts_index labels))%nat) as [Hk2|Hk2].
  - destruct (lookup_lt_is_Some_2 _ k2 Hk2) as [a2 Ha2].
    assert (Hk1 : (k1 < length (value_counts_index labels))%nat) by lia.
    destruct (lookup_lt_is_Some_2 _ k1 Hk1) as [a1 Ha1].
    rewrite (relabel_by_size_count _ _ _ _ H Ha1), (relabel_by_size_count _ _ _ _ H Ha2).
    destruct (decide (k1 = k2)) as [->|Hne]; [assert (a1 = a2) by congruence; subst; lia|].
    assert (Hs : StronglySorted (more_frequent labels) (value_counts_index labels))
      by (apply StronglySorted_merge_sort; apply _).
    apply (StronglySorted_lookup _ _ k1 k2 a1 a2 Hs ltac:(lia) Ha1 Ha2).
  - assert (H0 : value_count labels' k2 = 0%nat); [|lia].
    apply value_count_zero. intros Hin. apply list_elem_of_lookup in Hin as [i Hi].
    assert (Hil : (i < length labels)%nat) by (apply lookup_lt_Some in Hi; lia).
    destruct (lookup_lt_is_Some_2 labels i Hil) as [a Ha].
    destruct (relabel_by_size_lookup _ _ _ _ H Ha) as (k' & Hk' & Hf).
    assert (k2 = k') by congruence. subst k'. apply lookup_lt_Some in Hf. lia.
Qed.

(** X18: Relabelling by size never fails; it keeps the partition, uses each of
    the labels from 0 to the number of clusters less one and no other, and
    numbers the clusters from the largest to the smallest. *)
Theorem relabel_by_size_spec (labels : list nat) :
  exists labels',
    relabel_by_size labels = Ok labels' /\
    (forall i j, same_cp labels' i j <-> same_cp labels i j) /\
    (forall k, k ∈ labels' <-> (k < length (remove_dups labels))%nat) /\
    (forall k1 k2, (k1 <= k2)%nat ->
       (value_count labels' k2 <= value_count labels' k1)%nat).
Proof.
  destruct (relabel_by_size_is_Ok labels) as (labels' & H & _).
  exists labels'. split; [exact H|]. split; [|split].
  - intros i j. apply (relabel_by_size_same_cp labels). exact H.
  - apply (relabel_by_size_range labels). exact H.
  - intros k1 k2. apply (relabel_by_size_counts labels). exact H.
Qed.

End RelabelBySize.

(** ** The families of the nodes *)

Section NodeFamilyColumn.
Import DeepGraph Partition ClusteringStep2 NodeFamilies.

Lemma sorted_range (n a : nat) (l : list nat) :
  StronglySorted le l -> NoDup l ->
  (forall k, k ∈ l <-> (a <= k < a + n)%nat) -> l = seq a n.
Proof.
  revert a l. induction n as [|n IH]; intros a l Hs Hnd Hel.
  - destruct l as [|x l]; [reflexivity|]. exfalso.
    assert (x ∈ x :: l) as Hx by apply list_elem_of_here. apply Hel in Hx. lia.
  - destruct l as [|x l].
    + exfalso. apply (not_elem_of_nil a). apply Hel. lia.
    + apply StronglySorted_inv in Hs as [Hs Hall]. rewrite Forall_forall in Hall.
      apply NoDup_cons in Hnd as [Hx Hnd].
      assert (x = a) as ->.
      { assert (a <= x)%nat by (apply (Hel x); apply list_elem_of_here).
        assert (a ∈ x :: l) as Ha by (apply Hel; lia).
        apply elem_of_cons in Ha as [->|Ha]; [reflexivity|]. apply Hall in Ha. lia. }
      cbn. f_equal. apply IH; [exact Hs|exact Hnd|]. intros k. split.
      * intros Hk. assert (k ∈ a :: l) as Hk' by (apply list_elem_of_further; exact Hk).
        apply Hel in Hk'. assert (k <> a) by (intros ->; contradiction). lia.
      * intros Hk. assert (k ∈ a :: l) as Hk' by (apply Hel; lia).
        apply elem_of_cons in Hk' as [->|Hk']; [lia|exact Hk'].
Qed.

Lemma groupby_keys_range (labels : list nat) (K : nat) :
  (forall k, k ∈ labels <-> (k < K)%nat) -> groupby_keys labels = seq 0 K.
Proof.
  intros Hel. unfold groupby_keys. apply sorted_range.
  - apply StronglySorted_merge_sort; apply _.
  - rewrite merge_sort_Permutation. apply NoDup_remove_dups.
  - intros k. rewrite merge_sort_Permutation, elem_of_remove_dups, Hel. lia.
Qed.

Lemma elem_of_it (index labels : list nat) (K F c : nat) :
  groupby_keys labels = seq 0 K -> (F < K)%nat ->
  c ∈ it index labels !!! F <->
  exists i, index !! i = Some c /\ labels !! i = Some F.
Proof.
  intros Hk HF. unfold it. rewrite Hk.
  assert (Hl : ((fun k => (filter (fun r : nat * nat => r.2 = k) (zip index labels)).*1)
                  <$> seq 0 K) !! F
               = Some ((filter (fun r : nat * nat => r.2 = F) (zip index labels)).*1)).
  { rewrite list_lookup_fmap, lookup_seq_lt by exact HF. reflexivity. }
  rewrite (list_lookup_total_correct _ _ _ Hl).
  rewrite list_elem_of_fmap. split.
  - intros ([c' f] & -> & Hin). apply list_elem_of_filter in Hin as [Hf Hin].
    cbn in Hf. subst f. apply list_elem_of_lookup in Hin as [i Hi].
    apply lookup_zip_with_Some in Hi as (a & b & [= -> ->] & Ha & Hb).
    exists i. split; assumption.
  - intros (i & Hi & Hf). exists (c, F). split; [reflexivity|].
    apply list_elem_of_filter. split; [reflexivity|].
    apply list_elem_of_lookup. exists i.
    apply lookup_zip_with_Some. exists c, F. split; [reflexivity|]. split; assumption.
Qed.

Lemma length_assign_loop (cps : list nat) (groups : list (list nat)) (Fs : list nat)
    (col : list Z) :
  length col = length cps ->
  length (foldl (fun col F => assign cps col (groups !!! F) F) col Fs) = length cps.
Proof.
  revert col. induction Fs as [|F Fs IH]; intros col Hlen; [exact Hlen|].
  cbn. apply IH. unfold assign. rewrite length_zip_with. lia.
Qed.

(** The loop, seen from one node. *)
Lemma assign_loop_lookup (cps : list nat) (groups : list (list nat)) (Fs : list nat)
    (col : list Z) (n c : nat) (v : Z) :
  cps !! n = Some c -> col !! n = Some v ->
  foldl (fun col F => assign cps col (groups !!! F) F) col Fs !! n
  = Some (foldl (fun f F => if bool_decide (c ∈ groups !!! F) then Z.of_nat F else f)
            v Fs).
Proof.
  intros Hc. revert col v. induction Fs as [|F Fs IH]; intros col v Hv; [exact Hv|].
  cbn. apply IH. unfold assign. rewrite lookup_zip_with, Hc, Hv. reflexivity.
Qed.

Lemma node_loop_hit (groups : list (list nat)) (c f : nat) (Fs : list nat) (v : Z) :
  (forall F, F ∈ Fs -> c ∈ groups !!! F <-> F = f) ->
  foldl (fun f F => if bool_decide (c ∈ groups !!! F) then Z.of_nat F else f) v Fs
  = if bool_decide (f ∈ Fs) then Z.of_nat f else v.
Proof.
  revert v. induction Fs as [|F Fs IH]; intros v Hall; [reflexivity|].
  cbn. rewrite IH by (intros F' HF'; apply Hall; apply list_elem_of_further; exact HF').
  pose proof (Hall F (list_elem_of_here _ _)) as HF.
  destruct (decide (F = f)) as [->|Hne].
  - rewrite (bool_decide_eq_true_2 (c ∈ groups !!! f)) by (apply HF; reflexivity).
    rewrite (bool_decide_eq_true_2 (f ∈ f :: Fs)) by apply list_elem_of_here.
    destruct (bool_decide (f ∈ Fs)); reflexivity.
  - rewrite (bool_decide_eq_false_2 (c ∈ groups !!! F)) by (rewrite HF; exact Hne).
    destruct (decide (f ∈ Fs)) as [Hin|Hin].
    + rewrite (bool_decide_eq_true_2 _ Hin).
      rewrite bool_decide_eq_true_2 by (apply list_elem_of_further; exact Hin). reflexivity.
    + rewrite (bool_decide_eq_false_2 _ Hin).
      rewrite bool_decide_eq_false_2; [reflexivity|].
      intros Hin'. apply elem_of_cons in Hin' as [->|Hin']; contradiction.
Qed.

Lemma node_loop_miss (groups : list (list nat)) (c : nat) (Fs : list nat) (v : Z) :
  (forall F, F ∈ Fs -> c ∉ groups !!! F) ->
  foldl (fun f F => if bool_decide (c ∈ groups !!! F) then Z.of_nat F else f) v Fs = v.
Proof.
  revert v. induction Fs as [|F Fs IH]; intros v Hall; [reflexivity|].
  cbn. rewrite bool_decide_eq_false_2 by (apply Hall; apply list_elem_of_here).
  apply IH. intros F' HF'. apply Hall. apply list_elem_of_further. exact HF'.
Qed.

Lemma length_it (index labels : list nat) (K : nat) :
  groupby_keys labels = seq 0 K -> length (it index labels) = K.
Proof. intros Hk. unfold it. rewrite Hk, length_fmap, length_seq. reflexivity. Qed.

(** X19: After the relabelling by size, the loop gives every node the family
    of its heat wave, and leaves at -1 the nodes of no heat wave of the
    table. *)
Theorem F_upgma_column_spec (raw index labels cps : list nat) (n c : nat) :
  relabel_by_size raw = Ok labels ->
  NoDup index ->
  cps !! n = Some c ->
  (forall i f, index !! i = Some c -> labels !! i = Some f ->
     F_upgma_column index labels cps !! n = Some (Z.of_nat f)) /\
  (c ∉ index -> F_upgma_column index labels cps !! n = Some (-1)).
Proof.
  intros Hrel Hnd Hc.
  pose proof (groupby_keys_range labels (length (remove_dups raw))
                (relabel_by_size_range raw labels Hrel)) as Hk.
  pose proof (length_it index labels _ Hk) as Hlen.
  assert (Hinit : replicate (length cps) (-1) !! n = Some (-1)).
  { apply lookup_replicate. split; [reflexivity|]. apply lookup_lt_Some in Hc. exact Hc. }
  unfold F_upgma_column. cbv zeta.
  rewrite (assign_loop_lookup _ _ _ _ n c (-1) Hc Hinit), Hlen. split.
  - intros i f Hi Hf.
    assert (HfK : (f < length (remove_dups raw))%nat).
    { apply (relabel_by_size_range raw labels Hrel). eapply list_elem_of_lookup_2. exact Hf. }
    rewrite (node_loop_hit _ c f).
    + rewrite bool_decide_eq_true_2 by (apply elem_of_seq; lia). reflexivity.
    + intros F HF. apply elem_of_seq in HF.
      rewrite (elem_of_it index labels _ F c Hk) by lia. split.
      * intros (i' & Hi' & Hf').
        assert (i' = i) as -> by (apply (NoDup_lookup _ _ _ _ Hnd Hi' Hi)). congruence.
      * intros ->. exists i. split; assumption.
  - intros Hout. rewrite node_loop_miss; [reflexivity|].
    intros F HF. apply elem_of_seq in HF.
    rewrite (elem_of_it index labels _ F c Hk) by lia.
    intros (i & Hi & _). apply Hout. eapply list_elem_of_lookup_2. exact Hi.
Qed.

Lemma F_upgma_column_spec_witness :
  F_upgma_column [4; 7; 9]%nat [1; 0; 0]%nat [7; 4; 9; 7]%nat !! 1%nat = Some 1.
Proof.
  assert (Hnd : NoDup [4; 7; 9]%nat) by (apply (bool_decide_unpack _); vm_compute; exact I).
  assert (Hrel : relabel_by_size [2; 1; 1]%nat = Ok [1; 0; 0]%nat) by reflexivity.
  exact (proj1 (F_upgma_column_spec [2; 1; 1]%nat [4; 7; 9]%nat [1; 0; 0]%nat
                  [7; 4; 9; 7]%nat 1%nat 4%nat Hrel Hnd eq_refl)
           0%nat 1%nat eq_refl eq_refl).
Defined.
End NodeFamilyColumn.

(** ** The tables of the seasons *)

Section SeasonTablesCover.
Import SeasonalClusters SeasonTables.

Lemma assign_season_block (doy s : Z) :
  assign_season doy = Season s <->
  1 <= s <= 4 /\ 90 * (s - 1) < doy <= 90 * s.
Proof.
  unfold assign_season. repeat case_bool_decide; split;
    try (intros [= <-]; lia); try discriminate;
    try (intros [Hs Hd]; f_equal; lia); intros [Hs Hd]; exfalso; lia.
Qed.

Lemma length_season_tables (doys : list Z) :
  length (mjoin (season_tables doys))
  = length (filter (fun doy => 1 <= doy <= 360) doys).
Proof.
  unfold season_tables. change (seqZ 1 4) with [1; 2; 3; 4]. cbn [fmap list_fmap mjoin list_join].
  rewrite !length_app. cbn [length]. unfold season_data.
  induction doys as [|d doys IH]; [reflexivity|].
  rewrite !filter_cons.
  repeat match goal with
         | |- context [decide (assign_season d = Season ?s)] =>
             destruct (decide (assign_season d = Season s)) as [?H|?H]
         end;
    destruct (decide (1 <= d <= 360)) as [Hd|Hd]; cbn [length];
    repeat match goal with
           | H : assign_season d = Season _ |- _ => apply assign_season_block in H
           | H : ~ assign_season d = Season _ |- _ => rewrite assign_season_block in H
           end; try lia.
Qed.

(** X20: The loop over the seasons writes every row of the days 1 to 360 to
    the table of one season, the one of its block of 90 days, and the rows
    of the days after 360 to none. *)
Theorem season_tables_cover (doys : list Z) :
  (forall s doy, 1 <= s <= 4 ->
     doy ∈ season_data doys s <-> doy ∈ doys /\ 90 * (s - 1) < doy <= 90 * s) /\
  (forall doy, 360 < doy -> forall t, t ∈ season_tables doys -> doy ∉ t) /\
  length (mjoin (season_tables doys))
  = length (filter (fun doy => 1 <= doy <= 360) doys).
Proof.
  split; [|split].
  - intros s doy Hs. unfold season_data.
    rewrite list_elem_of_filter, assign_season_block. tauto.
  - intros doy Hdoy t Ht Hin. unfold season_tables in Ht.
    apply list_elem_of_fmap in Ht as (s & -> & Hs). apply elem_of_seqZ in Hs.
    unfold season_data in Hin. apply list_elem_of_filter in Hin as [Hin _].
    apply assign_season_block in Hin. lia.
  - apply length_season_tables.
Qed.
End SeasonTablesCover.

(** ** The hottest record *)

Section HottestRecord.
Import DeepGraph HeatwaveDetection.

Lemma lower_bound_exists (l : list Q) : exists lo, forall z, z ∈ l -> (lo <= z)%Q.
Proof.
  induction l as [|a l [lo IH]].
  - exists 0%Q. intros z Hz. apply elem_of_nil in Hz. contradiction.
  - destruct (Qlt_le_dec a lo) as [Hlt|Hle].
    + exists a. intros z Hz. apply elem_of_cons in Hz as [->|Hz]; [apply Qle_refl|].
      apply Qle_trans with lo; [apply Qlt_le_weak, Hlt|apply IH, Hz].
    + exists lo. intros z Hz. apply elem_of_cons in Hz as [->|Hz]; [exact Hle|apply IH, Hz].
Qed.

Lemma elem_of_merge (vt : list obs) (tmp2 : list thresh_row) (row : result_row) :
  row ∈ merge vt tmp2 ->
  r_obs row ∈ vt /\ exists th, th ∈ tmp2 /\ r_thresh row = thresh th.
Proof.
  unfold merge. intros H. apply list_elem_of_bind in H as (r & H & Hr).
  apply list_elem_of_fmap in H as (th & -> & Hth).
  apply list_elem_of_filter in Hth as [_ Hth]. cbn. split; [exact Hr|].
  exists th. split; [exact Hth|reflexivity].
Qed.

(** X21: The comparison with the threshold is not strict: a record of the
    merged table as warm as every record of the data is an extreme event,
    so that in a table of one constant temperature every merged record is
    an extreme event. *)
Theorem hottest_record_is_extreme (vt : list obs) (res : list result_row)
    (row : result_row) :
  result vt = Ok res ->
  row ∈ res ->
  (forall r, r ∈ vt -> (t2m r <= t2m (r_obs row))%Q) ->
  row ∈ detect_extreme_events res.
Proof.
  intros Hres Hrow Hmax. unfold result in Hres.
  destruct (threshold_table (g_t_v vt)) as [tmp2|e] eqn:Et; [|discriminate Hres].
  cbn in Hres. injection Hres as <-.
  unfold detect_extreme_events. apply list_elem_of_filter. split; [|exact Hrow].
  apply Qle_bool_iff.
  apply elem_of_merge in Hrow as (_ & th & Hth & ->).
  destruct (lower_bound_exists (t2m <$> g_t_v vt)) as [lo Hlo].
  apply (threshold_table_range (g_t_v vt) tmp2 lo (t2m (r_obs row))) in Hth;
    [apply Hth| |exact Et].
  intros r Hr. split.
  - apply Hlo, list_elem_of_fmap. exists r. split; [reflexivity|exact Hr].
  - apply Hmax. unfold g_t_v in Hr. apply elem_of_filter_by_values_v in Hr as [Hr _]. exact Hr.
Qed.

Lemma hottest_record_is_extreme_witness :
  {| r_obs := {| x := 0; y := 0; year := 2000; ytime := 16; t2m := 9 |};
     r_thresh := 900 # 100 |}
  ∈ detect_extreme_events
      (match result Examples.two_days with Ok t => t | Raise _ => [] end).
Proof.
  apply (hottest_record_is_extreme Examples.two_days).
  - vm_compute. reflexivity.
  - apply list_elem_of_lookup. exists 1%nat. vm_compute. reflexivity.
  - intros r Hr. unfold Examples.two_days in Hr.
    rewrite !elem_of_cons, elem_of_nil in Hr.
    destruct Hr as [->|[->|[]]]; cbn; discriminate.
Defined.
End HottestRecord.
